(** * The Discrete Hankel Transform of FBPIC

    A shallow embedding of [fbpic/fields/spectral_transform/hankel.py]
    (class [DHT]: [__init__], [get_r], [get_nu], [transform],
    [inverse_transform]) and of the density profile [dens_func] of
    [docs/example_input/boosted_frame_sim.py], with the properties of
    them that the specification states or the code shows.

    Conventions of the embedding.
    - Python [int]s are [Z]; Python and NumPy floating-point numbers are
      idealised as the real numbers [R] (no rounding, no overflow, no NaN);
      [complex128] is a pair of reals.
    - A 1-D array is a [list]; a 2-D array is a shape with an indexing
      function ([ndarray]).
    - A Python exception is a value of [exn]; a statement that can raise
      returns a [result]; [__init__] runs in a state-and-exception monad
      over the object under construction and the standard output.
    - SciPy, NumPy's [linalg] and the CUDA bindings are not part of the
      repository: they are the fields of the record [Lib]. *)

From Stdlib Require Import Reals ZArith List String Bool Lra Lia Sorted.
Import ListNotations.

Open Scope string_scope.
Open Scope Z_scope.
Open Scope R_scope.

(* ================================================================= *)
(** ** Exceptions and results *)

Inductive exn : Type :=
| ValueError (msg : string)
| NameError (name : string)
| AttributeError (attr : string)
| IndexError (msg : string)
| ZeroDivisionError (msg : string)
| LibraryError (msg : string).

Inductive result (A : Type) : Type :=
| Ok (a : A)
| Raise (e : exn).

Arguments Ok {A} a.
Arguments Raise {A} e.

Definition rbind {A B : Type} (c : result A) (k : A -> result B) : result B :=
  match c with
  | Ok a => k a
  | Raise e => Raise e
  end.

(* ================================================================= *)
(** ** Numbers *)

(** [complex128], idealised. *)
Definition C : Type := (R * R)%type.

Definition C0 : C := (0, 0).
Definition RtoC (x : R) : C := (x, 0).
Definition Cadd (a b : C) : C := (fst a + fst b, snd a + snd b).
Definition Cmul (a b : C) : C :=
  (fst a * fst b - snd a * snd b, fst a * snd b + snd a * fst b).

(** [a / b] on two Python scalars: a zero divisor raises. *)
Definition py_div (a b : R) : result R :=
  if Req_dec_T b 0 then Raise (ZeroDivisionError "float division by zero")
  else Ok (a / b).

(** [x ** n] on a Python float and a Python int. *)
Definition py_pow (x : R) (n : Z) : result R :=
  if Req_dec_T x 0 then
    if (n <? 0)%Z
    then Raise (ZeroDivisionError "0.0 cannot be raised to a negative power")
    else Ok (powerRZ x n)
  else Ok (powerRZ x n).

(* ================================================================= *)
(** ** Arrays *)

(** A 2-D array: its shape and its items.  Items outside the shape are
    never read by the operations below. *)
Record ndarray (A : Type) : Type := mk_ndarray {
  nrows : nat;
  ncols : nat;
  item : nat -> nat -> A
}.

Arguments mk_ndarray {A} nrows ncols item.
Arguments nrows {A} n.
Arguments ncols {A} n.
Arguments item {A} n i j.

Definition shape {A : Type} (a : ndarray A) : nat * nat := (nrows a, ncols a).

Definition shape_eqb (s t : nat * nat) : bool :=
  Nat.eqb (fst s) (fst t) && Nat.eqb (snd s) (snd t).

(** Two arrays hold the same values: same shape, same items inside it. *)
Definition same_array {A : Type} (a b : ndarray A) : Prop :=
  shape a = shape b /\
  forall i j, (i < nrows a)%nat -> (j < ncols a)%nat -> item a i j = item b i j.

(** [a.astype(complex)] *)
Definition astype_complex (a : ndarray R) : ndarray C :=
  mk_ndarray (nrows a) (ncols a) (fun i j => RtoC (item a i j)).

(** [np.arange(n)] for an integer [n], as floats after [+ 0.5] or [*]. *)
Definition arange (n : Z) : list R := map INR (seq 0 (Z.to_nat n)).

(** [np.zeros((n, k), dtype=np.complex128)] *)
Definition np_zeros (n k : Z) : result (ndarray C) :=
  if ((n <? 0) || (k <? 0))%Z
  then Raise (ValueError "negative dimensions are not allowed")
  else Ok (mk_ndarray (Z.to_nat n) (Z.to_nat k) (fun _ _ => C0)).

(** NumPy broadcasting of a source extent onto a target extent. *)
Definition bcast_ok (src tgt : nat) : bool := Nat.eqb src tgt || Nat.eqb src 1.
Definition bcast_ix (src i : nat) : nat := if Nat.eqb src 1 then 0%nat else i.

Definition broadcast_error {A : Type} : result A :=
  Raise (ValueError "could not broadcast input array").

(** [a[r0:, c0:] = src] for a 2-D [src] ([r0], [c0] within the shape). *)
Definition setitem_block {A : Type} (a : ndarray A) (r0 c0 : nat)
    (src : ndarray A) : result (ndarray A) :=
  if bcast_ok (nrows src) (nrows a - r0) && bcast_ok (ncols src) (ncols a - c0)
  then Ok (mk_ndarray (nrows a) (ncols a)
             (fun i j =>
                if Nat.leb r0 i && Nat.leb c0 j
                then item src (bcast_ix (nrows src) (i - r0))
                              (bcast_ix (ncols src) (j - c0))
                else item a i j))
  else broadcast_error.

(** [a[i, :] = v] for a 1-D [v]. *)
Definition setitem_row {A : Type} (dflt : A) (a : ndarray A) (i : nat)
    (v : list A) : result (ndarray A) :=
  if Nat.ltb i (nrows a) then
    if bcast_ok (List.length v) (ncols a)
    then Ok (mk_ndarray (nrows a) (ncols a)
               (fun i' j =>
                  if Nat.eqb i' i then nth (bcast_ix (List.length v) j) v dflt
                  else item a i' j))
    else broadcast_error
  else Raise (IndexError "index is out of bounds for axis 0").

(** [a[i, :] = x] for a scalar [x]. *)
Definition fill_row {A : Type} (a : ndarray A) (i : nat) (x : A)
    : result (ndarray A) :=
  if Nat.ltb i (nrows a)
  then Ok (mk_ndarray (nrows a) (ncols a)
             (fun i' j => if Nat.eqb i' i then x else item a i' j))
  else Raise (IndexError "index is out of bounds for axis 0").

(** [a[:, j] = x] for a scalar [x]. *)
Definition fill_col {A : Type} (a : ndarray A) (j : nat) (x : A)
    : result (ndarray A) :=
  if Nat.ltb j (ncols a)
  then Ok (mk_ndarray (nrows a) (ncols a)
             (fun i j' => if Nat.eqb j' j then x else item a i j'))
  else Raise (IndexError "index is out of bounds for axis 1").

(** [a[1:, :]] *)
Definition rows_from_1 {A : Type} (a : ndarray A) : ndarray A :=
  mk_ndarray (nrows a - 1) (ncols a) (fun i j => item a (S i) j).

(** The sum of [f 0 .. f (n-1)]. *)
Fixpoint Csum (f : nat -> C) (n : nat) : C :=
  match n with
  | O => C0
  | S k => Cadd (Csum f k) (f k)
  end.

(** The matrix product of a complex and a real 2-D array (the real one
    is promoted to complex, as NumPy does). *)
Definition matmul (a : ndarray C) (b : ndarray R) : ndarray C :=
  mk_ndarray (nrows a) (ncols b)
    (fun i j => Csum (fun k => Cmul (item a i k) (RtoC (item b k j))) (ncols a)).

(** [np.dot(a, b, out=out)] on 2-D arrays: the inner extents must agree
    and [out] must have the shape of the product; nothing is written
    otherwise. *)
Definition np_dot (a : ndarray C) (b : ndarray R) (out : ndarray C)
    : result (ndarray C) :=
  if Nat.eqb (ncols a) (nrows b) then
    if shape_eqb (shape out) (nrows a, ncols b)
    then Ok (matmul a b)
    else Raise (ValueError "output array is not acceptable")
  else Raise (ValueError "shapes not aligned").

(* ================================================================= *)
(** ** The libraries the module imports *)

(** The handle [cublas.Blas()] returns. *)
Inductive blas_handle : Type := BlasHandle.

(** What the module takes from outside the repository's sources:
    [fbpic.cuda_utils] ([cuda_installed], [cuda_tpb_bpg_2d]), SciPy's
    Bessel functions, NumPy's [linalg] and allocator, and the CUDA
    bindings.  Calls that can raise return a [result]. *)
Record Lib : Type := mk_Lib {
  (** [from fbpic.cuda_utils import cuda_installed] *)
  cuda_installed : bool;
  (** [scipy.special.jn_zeros(n, nt)]: the first [nt] positive zeros of
      the Bessel function of order [n] *)
  jn_zeros : Z -> Z -> result (list R);
  (** [scipy.special.jn(n, x)] *)
  jn : Z -> R -> R;
  (** [np.linalg.inv], [np.linalg.pinv] *)
  linalg_inv : ndarray R -> result (ndarray R);
  linalg_pinv : ndarray R -> result (ndarray R);
  (** what the [k]-th [np.empty] finds in the memory it is given *)
  uninitialized : nat -> nat -> nat -> R;
  (** [cublas.Blas()] *)
  cublas_Blas : result blas_handle;
  (** [cuda.to_device(a)]: a device copy of [a] *)
  cuda_to_device : ndarray C -> result (ndarray C);
  (** [cuda_tpb_bpg_2d(Nz, Nr)]: the kernels' launch configuration *)
  cuda_tpb_bpg_2d : Z -> Z -> result ((nat * nat) * (nat * nat))
}.

(** [np.empty((n, k))], the [a]-th allocation of the constructor. *)
Definition np_empty (L : Lib) (a : nat) (n k : Z) : result (ndarray R) :=
  if ((n <? 0) || (k <? 0))%Z
  then Raise (ValueError "negative dimensions are not allowed")
  else Ok (mk_ndarray (Z.to_nat n) (Z.to_nat k) (uninitialized L a)).

(* ================================================================= *)
(** ** Names *)

(** What a global name of the module can be bound to. *)
Inductive pyval : Type :=
| PyModule (name : string)
| PyFunction (name : string)
| PyClass (name : string)
| PyBool (b : bool)
| PyInt (n : Z).

(** The module's global namespace once its top-level statements have
    run (lines 12-23): the CUDA names are bound only when
    [cuda_installed] holds. *)
Definition module_globals (L : Lib) : list (string * pyval) :=
  [ ("np", PyModule "numpy");
    ("jn", PyFunction "scipy.special.jn");
    ("jn_zeros", PyFunction "scipy.special.jn_zeros");
    ("cuda_installed", PyBool (cuda_installed L)) ]
  ++ (if cuda_installed L
      then [ ("cublas", PyModule "pyculib.blas");
             ("cuda", PyModule "fbpic.cuda_utils.cuda");
             ("cuda_tpb_bpg_2d", PyFunction "fbpic.cuda_utils.cuda_tpb_bpg_2d");
             ("cuda_copy_2d_to_2d", PyFunction "cuda_methods.cuda_copy_2d_to_2d") ]
      else [])
  ++ [ ("DHT", PyClass "DHT") ].

(** The names Python's [builtins] module binds. *)
Definition python_builtins : list string :=
  [ "abs"; "all"; "any"; "ascii"; "bin"; "bool"; "breakpoint"; "bytearray";
    "bytes"; "callable"; "chr"; "classmethod"; "compile"; "complex";
    "delattr"; "dict"; "dir"; "divmod"; "enumerate"; "eval"; "exec";
    "filter"; "float"; "format"; "frozenset"; "getattr"; "globals";
    "hasattr"; "hash"; "help"; "hex"; "id"; "input"; "int"; "isinstance";
    "issubclass"; "iter"; "len"; "list"; "locals"; "map"; "max";
    "memoryview"; "min"; "next"; "object"; "oct"; "open"; "ord"; "pow";
    "print"; "property"; "range"; "repr"; "reversed"; "round"; "set";
    "setattr"; "slice"; "sorted"; "staticmethod"; "str"; "sum"; "super";
    "tuple"; "type"; "vars"; "zip"; "__import__";
    "True"; "False"; "None"; "Ellipsis"; "NotImplemented"; "__debug__";
    "BaseException"; "Exception"; "ArithmeticError"; "AssertionError";
    "AttributeError"; "EOFError"; "FloatingPointError"; "ImportError";
    "IndexError"; "KeyError"; "KeyboardInterrupt"; "LookupError";
    "MemoryError"; "NameError"; "NotImplementedError"; "OSError";
    "OverflowError"; "RuntimeError"; "StopIteration"; "SyntaxError";
    "SystemError"; "SystemExit"; "TypeError"; "UnboundLocalError";
    "ValueError"; "ZeroDivisionError"; "Warning"; "UserWarning";
    "DeprecationWarning"; "RuntimeWarning" ].

Fixpoint lookup (name : string) (ns : list (string * pyval)) : option pyval :=
  match ns with
  | [] => None
  | (k, v) :: rest => if String.eqb name k then Some v else lookup name rest
  end.

(** Reading a name that no statement of the function assigns: the module's
    globals, then the builtins, else [NameError]. *)
Definition load_global (L : Lib) (name : string) : result pyval :=
  match lookup name (module_globals L) with
  | Some v => Ok v
  | None =>
      if existsb (String.eqb name) python_builtins
      then Ok (PyFunction name)
      else Raise (NameError name)
  end.

(** An array extent must be an integer. *)
Definition as_int (v : pyval) : result Z :=
  match v with
  | PyInt n => Ok n
  | PyBool b => Ok (if b then 1%Z else 0%Z)
  | _ => Raise (LibraryError "TypeError: object cannot be interpreted as an integer")
  end.

(* ================================================================= *)
(** ** The object *)

(** The attributes of a [DHT] object; [None] is an attribute that has
    not been assigned. *)
Record DHT : Type := mk_DHT {
  self_use_cuda : option (bool);
  self_blas : option (blas_handle);
  self_d_in : option (ndarray C);
  self_d_out : option (ndarray C);
  self_dim_grid : option (nat * nat);
  self_dim_block : option (nat * nat);
  self_p : option (Z);
  self_m : option (Z);
  self_Nr : option (Z);
  self_rmax : option (R);
  self_nu : option (list R);
  self_r : option (list R);
  self_invM : option (ndarray R);
  self_M : option (ndarray R);
  self_d_M : option (ndarray C);
  self_d_invM : option (ndarray C)
}.

(** The object as [__init__] receives it: no attribute yet. *)
Definition new_DHT : DHT :=
  mk_DHT None None None None None None None None
         None None None None None None None None.

Definition set_use_cuda (v : bool) (s : DHT) : DHT :=
  mk_DHT (Some v) (self_blas s) (self_d_in s) (self_d_out s)
         (self_dim_grid s) (self_dim_block s) (self_p s) (self_m s)
         (self_Nr s) (self_rmax s) (self_nu s) (self_r s)
         (self_invM s) (self_M s) (self_d_M s) (self_d_invM s).
Definition set_blas (v : blas_handle) (s : DHT) : DHT :=
  mk_DHT (self_use_cuda s) (Some v) (self_d_in s) (self_d_out s)
         (self_dim_grid s) (self_dim_block s) (self_p s) (self_m s)
         (self_Nr s) (self_rmax s) (self_nu s) (self_r s)
         (self_invM s) (self_M s) (self_d_M s) (self_d_invM s).
Definition set_d_in (v : ndarray C) (s : DHT) : DHT :=
  mk_DHT (self_use_cuda s) (self_blas s) (Some v) (self_d_out s)
         (self_dim_grid s) (self_dim_block s) (self_p s) (self_m s)
         (self_Nr s) (self_rmax s) (self_nu s) (self_r s)
         (self_invM s) (self_M s) (self_d_M s) (self_d_invM s).
Definition set_d_out (v : ndarray C) (s : DHT) : DHT :=
  mk_DHT (self_use_cuda s) (self_blas s) (self_d_in s) (Some v)
         (self_dim_grid s) (self_dim_block s) (self_p s) (self_m s)
         (self_Nr s) (self_rmax s) (self_nu s) (self_r s)
         (self_invM s) (self_M s) (self_d_M s) (self_d_invM s).
Definition set_dim_grid (v : nat * nat) (s : DHT) : DHT :=
  mk_DHT (self_use_cuda s) (self_blas s) (self_d_in s) (self_d_out s)
         (Some v) (self_dim_block s) (self_p s) (self_m s)
         (self_Nr s) (self_rmax s) (self_nu s) (self_r s)
         (self_invM s) (self_M s) (self_d_M s) (self_d_invM s).
Definition set_dim_block (v : nat * nat) (s : DHT) : DHT :=
  mk_DHT (self_use_cuda s) (self_blas s) (self_d_in s) (self_d_out s)
         (self_dim_grid s) (Some v) (self_p s) (self_m s)
         (self_Nr s) (self_rmax s) (self_nu s) (self_r s)
         (self_invM s) (self_M s) (self_d_M s) (self_d_invM s).
Definition set_p (v : Z) (s : DHT) : DHT :=
  mk_DHT (self_use_cuda s) (self_blas s) (self_d_in s) (self_d_out s)
         (self_dim_grid s) (self_dim_block s) (Some v) (self_m s)
         (self_Nr s) (self_rmax s) (self_nu s) (self_r s)
         (self_invM s) (self_M s) (self_d_M s) (self_d_invM s).
Definition set_m (v : Z) (s : DHT) : DHT :=
  mk_DHT (self_use_cuda s) (self_blas s) (self_d_in s) (self_d_out s)
         (self_dim_grid s) (self_dim_block s) (self_p s) (Some v)
         (self_Nr s) (self_rmax s) (self_nu s) (self_r s)
         (self_invM s) (self_M s) (self_d_M s) (self_d_invM s).
Definition set_Nr (v : Z) (s : DHT) : DHT :=
  mk_DHT (self_use_cuda s) (self_blas s) (self_d_in s) (self_d_out s)
         (self_dim_grid s) (self_dim_block s) (self_p s) (self_m s)
         (Some v) (self_rmax s) (self_nu s) (self_r s)
         (self_invM s) (self_M s) (self_d_M s) (self_d_invM s).
Definition set_rmax (v : R) (s : DHT) : DHT :=
  mk_DHT (self_use_cuda s) (self_blas s) (self_d_in s) (self_d_out s)
         (self_dim_grid s) (self_dim_block s) (self_p s) (self_m s)
         (self_Nr s) (Some v) (self_nu s) (self_r s)
         (self_invM s) (self_M s) (self_d_M s) (self_d_invM s).
Definition set_nu (v : list R) (s : DHT) : DHT :=
  mk_DHT (self_use_cuda s) (self_blas s) (self_d_in s) (self_d_out s)
         (self_dim_grid s) (self_dim_block s) (self_p s) (self_m s)
         (self_Nr s) (self_rmax s) (Some v) (self_r s)
         (self_invM s) (self_M s) (self_d_M s) (self_d_invM s).
Definition set_r (v : list R) (s : DHT) : DHT :=
  mk_DHT (self_use_cuda s) (self_blas s) (self_d_in s) (self_d_out s)
         (self_dim_grid s) (self_dim_block s) (self_p s) (self_m s)
         (self_Nr s) (self_rmax s) (self_nu s) (Some v)
         (self_invM s) (self_M s) (self_d_M s) (self_d_invM s).
Definition set_invM (v : ndarray R) (s : DHT) : DHT :=
  mk_DHT (self_use_cuda s) (self_blas s) (self_d_in s) (self_d_out s)
         (self_dim_grid s) (self_dim_block s) (self_p s) (self_m s)
         (self_Nr s) (self_rmax s) (self_nu s) (self_r s)
         (Some v) (self_M s) (self_d_M s) (self_d_invM s).
Definition set_M (v : ndarray R) (s : DHT) : DHT :=
  mk_DHT (self_use_cuda s) (self_blas s) (self_d_in s) (self_d_out s)
         (self_dim_grid s) (self_dim_block s) (self_p s) (self_m s)
         (self_Nr s) (self_rmax s) (self_nu s) (self_r s)
         (self_invM s) (Some v) (self_d_M s) (self_d_invM s).
Definition set_d_M (v : ndarray C) (s : DHT) : DHT :=
  mk_DHT (self_use_cuda s) (self_blas s) (self_d_in s) (self_d_out s)
         (self_dim_grid s) (self_dim_block s) (self_p s) (self_m s)
         (self_Nr s) (self_rmax s) (self_nu s) (self_r s)
         (self_invM s) (self_M s) (Some v) (self_d_invM s).
Definition set_d_invM (v : ndarray C) (s : DHT) : DHT :=
  mk_DHT (self_use_cuda s) (self_blas s) (self_d_in s) (self_d_out s)
         (self_dim_grid s) (self_dim_block s) (self_p s) (self_m s)
         (self_Nr s) (self_rmax s) (self_nu s) (self_r s)
         (self_invM s) (self_M s) (self_d_M s) (Some v).

(** The state a method runs in: the object and the standard output. *)
Record world : Type := mk_world {
  self : DHT;
  stdout : list string
}.

(** ** Statements: state and exceptions *)

(** A statement over a state [S]: the state it leaves, and whether it
    completed or raised. *)
Definition stmt (S A : Type) : Type := S -> S * result A.

Definition ret {S A : Type} (a : A) : stmt S A := fun w => (w, Ok a).

Definition raise {S A : Type} (e : exn) : stmt S A := fun w => (w, Raise e).

Definition bind {S A B : Type} (c : stmt S A) (k : A -> stmt S B) : stmt S B :=
  fun w =>
    match c w with
    | (w', Ok a) => k a w'
    | (w', Raise e) => (w', Raise e)
    end.

(** The statements of [__init__]. *)
Definition py (A : Type) : Type := stmt world A.

(** A call that raises or returns, and touches neither the object nor
    the output. *)
Definition call {S A : Type} (c : result A) : stmt S A := fun w => (w, c).

(** [self.x = v] *)
Definition setattr (upd : DHT -> DHT) : py unit :=
  fun w => (mk_world (upd (self w)) (stdout w), Ok tt).

(** [self.x] *)
Definition getattr {A : Type} (name : string) (get : DHT -> option A) : py A :=
  fun w =>
    match get (self w) with
    | Some a => (w, Ok a)
    | None => (w, Raise (AttributeError name))
    end.

(** [print(s)] *)
Definition print (s : string) : py unit :=
  fun w => (mk_world (self w) (stdout w ++ [s]), Ok tt).

Declare Scope py_scope.
Delimit Scope py_scope with py.
Notation "x <- c ;; k" := (bind c (fun x => k))
  (at level 61, c at next level, right associativity) : py_scope.
Notation "c ;; k" := (bind c (fun _ => k))
  (at level 61, right associativity) : py_scope.
Open Scope py_scope.

(* ================================================================= *)
(** ** [DHT.__init__] *)

(** Lines 53-69: register whether to use the GPU and, if so, set up the
    cuBLAS handle, the two device buffers and the launch configuration.
    [cublas], [cuda] and [cuda_tpb_bpg_2d] are global names that only a
    module with CUDA binds. *)
Definition register_gpu (L : Lib) (use_cuda : bool) (Nz Nr : Z) : py unit :=
  setattr (set_use_cuda use_cuda) ;;
  uc <- getattr "use_cuda" self_use_cuda ;;
  (if Bool.eqb uc true && Bool.eqb (cuda_installed L) false
   then setattr (set_use_cuda false) ;;
        print "** Cuda not available for Hankel transform." ;;
        print "** Performing the Hankel transform on the CPU."
   else ret tt) ;;
  uc <- getattr "use_cuda" self_use_cuda ;;
  if (uc : bool) then
    _ <- call (load_global L "cublas") ;;
    b <- call (cublas_Blas L) ;;
    setattr (set_blas b) ;;
    zero_array <- call (np_zeros Nz Nr) ;;
    _ <- call (load_global L "cuda") ;;
    d <- call (cuda_to_device L zero_array) ;;
    setattr (set_d_in d) ;;
    d <- call (cuda_to_device L zero_array) ;;
    setattr (set_d_out d) ;;
    _ <- call (load_global L "cuda_tpb_bpg_2d") ;;
    gb <- call (cuda_tpb_bpg_2d L Nz Nr) ;;
    setattr (set_dim_grid (fst gb)) ;;
    setattr (set_dim_block (snd gb))
  else ret tt.

(** [m in [p-1, p, p+1]] *)
Definition mode_ok (p m : Z) : bool :=
  existsb (Z.eqb m) [(p - 1)%Z; p; (p + 1)%Z].

Definition invalid_mode : exn := ValueError "m must be either p-1, p or p+1".

(** Lines 71-73: check that [m] has a valid value. *)
Definition check_mode (p m : Z) : py unit :=
  if Bool.eqb (mode_ok p m) false then raise invalid_mode else ret tt.

(** Lines 75-79: register the values of the arguments. *)
Definition register_args (p m Nr : Z) (rmax : R) : py unit :=
  setattr (set_p p) ;;
  setattr (set_m m) ;;
  setattr (set_Nr Nr) ;;
  setattr (set_rmax rmax).

(** Lines 81-87: the zeros of the Bessel function; for [m != 0] a zero
    at 0 is put before the first [Nr - 1] positive zeros
    ([np.hstack((np.array([0.]), jn_zeros(m, Nr-1)))]). *)
Definition bessel_zeros (L : Lib) (m Nr : Z) : result (list R) :=
  if negb (m =? 0)%Z
  then rbind (jn_zeros L m (Nr - 1)) (fun zs => Ok (0 :: zs))
  else jn_zeros L m Nr.

(** Line 90: [1./(2*np.pi*rmax) * alphas] *)
Definition spectral_grid (rmax : R) (alphas : list R) : result (list R) :=
  rbind (py_div 1 (2 * PI * rmax)) (fun f => Ok (map (fun a => f * a) alphas)).

(** Line 93: [(rmax*1./Nr) * ( np.arange(Nr) + 0.5 )] *)
Definition spatial_grid (rmax : R) (Nr : Z) : result (list R) :=
  rbind (py_div (rmax * 1) (IZR Nr))
        (fun h => Ok (map (fun k => h * (k + 0.5)) (arange Nr))).

(** Lines 101-104 *)
Definition p_denom (p m : Z) : Z := if (p =? m)%Z then (p + 1)%Z else p.

(** Line 105: [np.pi * rmax**2 * jn( p_denom, alphas)**2] *)
Definition denom (L : Lib) (p m : Z) (rmax : R) (alphas : list R) : list R :=
  map (fun a => PI * rmax ^ 2 * (jn L (p_denom p m) a) ^ 2) alphas.

(** Line 106:
    [jn( p, 2*np.pi* self.r[np.newaxis,:]*self.nu[:,np.newaxis] )] *)
Definition num (L : Lib) (p : Z) (r nu : list R) : ndarray R :=
  mk_ndarray (List.length nu) (List.length r)
    (fun i j => jn L p (2 * PI * nth j r 0 * nth i nu 0)).

(** [a / d[:, np.newaxis]] for a 2-D [a] and a 1-D [d] with one entry
    per row of [a]. *)
Definition div_rows (a : ndarray R) (d : list R) : ndarray R :=
  mk_ndarray (nrows a) (ncols a) (fun i j => item a i j / nth i d 0).

(** Line 111: [self.r**(m-1) * 1./( np.pi * rmax**(m+1) )] *)
Definition axis_row (m : Z) (rmax : R) (r : list R) : result (list R) :=
  rbind (py_pow rmax (m + 1))
        (fun q => Ok (map (fun x => powerRZ x (m - 1) * 1 / (PI * q)) r)).

(** Lines 95-115: calculate and store the inverse matrix [invM]. *)
Definition calc_invM (L : Lib) (p m Nr : Z) (rmax : R) (alphas : list R)
    : py unit :=
  a <- call (np_empty L 0 Nr Nr) ;;
  setattr (set_invM a) ;;
  r <- getattr "r" self_r ;;
  nu <- getattr "nu" self_nu ;;
  if negb (m =? 0)%Z then
    invM <- getattr "invM" self_invM ;;
    a <- call (setitem_block invM 1 0
                 (div_rows (rows_from_1 (num L p r nu))
                           (tl (denom L p m rmax alphas)))) ;;
    setattr (set_invM a) ;;
    if (p =? m - 1)%Z then
      r <- getattr "r" self_r ;;
      row <- call (axis_row m rmax r) ;;
      invM <- getattr "invM" self_invM ;;
      a <- call (setitem_row 0 invM 0 row) ;;
      setattr (set_invM a)
    else
      invM <- getattr "invM" self_invM ;;
      a <- call (fill_row invM 0 0) ;;
      setattr (set_invM a)
  else
    invM <- getattr "invM" self_invM ;;
    a <- call (setitem_block invM 0 0
                 (div_rows (num L p r nu) (denom L p m rmax alphas))) ;;
    setattr (set_invM a).

(** Lines 119-123: fill the forward matrix [M] (allocated by line 118):
    a pseudo-inverse beside a zero column when [m != 0] and [p != m-1],
    the inverse of [invM] otherwise. *)
Definition fill_M (L : Lib) (p m : Z) : py unit :=
  if negb (m =? 0)%Z && negb (p =? m - 1)%Z then
    invM <- getattr "invM" self_invM ;;
    P <- call (linalg_pinv L (rows_from_1 invM)) ;;
    M <- getattr "M" self_M ;;
    a <- call (setitem_block M 0 1 P) ;;
    setattr (set_M a) ;;
    M <- getattr "M" self_M ;;
    a <- call (fill_col M 0 0) ;;
    setattr (set_M a)
  else
    invM <- getattr "invM" self_invM ;;
    a <- call (linalg_inv L invM) ;;
    setattr (set_M a).

(** Lines 125-132: copy the matrices to the GPU if needed, as complex
    arrays ([np.asfortranarray( self.M, dtype=np.complex128 )]). *)
Definition copy_to_gpu (L : Lib) : py unit :=
  uc <- getattr "use_cuda" self_use_cuda ;;
  if (uc : bool) then
    _ <- call (load_global L "cuda") ;;
    M <- getattr "M" self_M ;;
    d <- call (cuda_to_device L (astype_complex M)) ;;
    setattr (set_d_M d) ;;
    invM <- getattr "invM" self_invM ;;
    d <- call (cuda_to_device L (astype_complex invM)) ;;
    setattr (set_d_invM d)
  else ret tt.

(** Lines 53-115 of [__init__]: everything before the forward matrix. *)
Definition init_grids_and_invM (L : Lib) (p m Nr Nz : Z) (rmax : R)
    (use_cuda : bool) : py unit :=
  register_gpu L use_cuda Nz Nr ;;
  check_mode p m ;;
  register_args p m Nr rmax ;;
  alphas <- call (bessel_zeros L m Nr) ;;
  nu <- call (spectral_grid rmax alphas) ;;
  setattr (set_nu nu) ;;
  r <- call (spatial_grid rmax Nr) ;;
  setattr (set_r r) ;;
  calc_invM L p m Nr rmax alphas.

(** [__init__] with the extent of the forward matrix left open: [size]
    is the evaluation of the expression that line 118 passes twice to
    [np.empty]. *)
Definition DHT_init_sized (L : Lib) (size : result Z) (p m Nr Nz : Z)
    (rmax : R) (use_cuda : bool) : py unit :=
  init_grids_and_invM L p m Nr Nz rmax use_cuda ;;
  n <- call size ;;
  a <- call (np_empty L 1 n n) ;;
  setattr (set_M a) ;;
  fill_M L p m ;;
  copy_to_gpu L.

(** Line 118 reads [np.empty((N, N))]: [N] is assigned nowhere in the
    function, so it is read as a global. *)
Definition size_N (L : Lib) : result Z := rbind (load_global L "N") as_int.

(** [DHT.__init__(self, p, m, Nr, Nz, rmax, use_cuda=False)] *)
Definition DHT_init (L : Lib) (p m Nr Nz : Z) (rmax : R) (use_cuda : bool)
    : py unit :=
  DHT_init_sized L (size_N L) p m Nr Nz rmax use_cuda.

(** [DHT(p, m, Nr, Nz, rmax, use_cuda)]: [__init__] on a fresh object;
    the object reaches the caller only if [__init__] returns. *)
Definition new_world : world := mk_world new_DHT [].

Definition construct (L : Lib) (p m Nr Nz : Z) (rmax : R) (use_cuda : bool)
    : result DHT :=
  match DHT_init L p m Nr Nz rmax use_cuda new_world with
  | (w, Ok _) => Ok (self w)
  | (_, Raise e) => Raise e
  end.

(** [get_r], [get_nu] *)
Definition get_r (s : DHT) : result (list R) :=
  match self_r s with Some r => Ok r | None => Raise (AttributeError "r") end.

Definition get_nu (s : DHT) : result (list R) :=
  match self_nu s with Some nu => Ok nu | None => Raise (AttributeError "nu") end.

(* ================================================================= *)
(** ** [DHT.transform] and [DHT.inverse_transform] *)

(** The state of a method call: the object and the caller's output
    array. *)
Record frame : Type := mk_frame {
  this : DHT;
  out : ndarray C
}.

Definition attr {A : Type} (name : string) (get : DHT -> option A)
    : stmt frame A :=
  fun w =>
    match get (this w) with
    | Some a => (w, Ok a)
    | None => (w, Raise (AttributeError name))
    end.

Definition set_this (upd : DHT -> DHT) : stmt frame unit :=
  fun w => (mk_frame (upd (this w)) (out w), Ok tt).

Definition read_out : stmt frame (ndarray C) := fun w => (w, Ok (out w)).

Definition write_out (a : ndarray C) : stmt frame unit :=
  fun w => (mk_frame (this w) a, Ok tt).

(** The sum of [f 0 .. f (n-1)] with complex terms multiplied. *)
Definition Cdot (a b : nat -> C) (n : nat) : C :=
  Csum (fun k => Cmul (a k) (b k)) n.

(** cuBLAS [gemm('N', 'N', m, n, k, alpha, A, B, beta, C)]:
    [C <- alpha * A * B + beta * C] on the leading [m x n] items. *)
Definition gemm (m n k : nat) (alpha : C) (A B : ndarray C) (beta : C)
    (Cm : ndarray C) : ndarray C :=
  mk_ndarray (nrows Cm) (ncols Cm)
    (fun i j =>
       if Nat.ltb i m && Nat.ltb j n
       then Cadd (Cmul alpha (Cdot (item A i) (fun l => item B l j) k))
                 (Cmul beta (item Cm i j))
       else item Cm i j).

(** Modelled from the spec: the kernel [cuda_copy_2d_to_2d] of
    [cuda_methods.py], which is not among the sources.  The spec has it
    copy one array into the other "preserving logical element-to-position
    mapping", whatever the memory order of either. *)
Definition cuda_copy_2d_to_2d (array_in array_out : ndarray C) : ndarray C :=
  mk_ndarray (nrows array_out) (ncols array_out)
    (fun i j =>
       if Nat.ltb i (nrows array_in) && Nat.ltb j (ncols array_in)
       then item array_in i j
       else item array_out i j).

Definition shape_error : exn :=
  ValueError
    "The shape of F or G is different from the shape chosen at initialization.".

(** Lines 173, 202: [(X.shape!=self.d_in.shape) or (Y.shape!=self.d_out.shape)] *)
Definition shapes_differ (X : ndarray C) : stmt frame bool :=
  d_in <- attr "d_in" self_d_in ;;
  if negb (shape_eqb (shape X) (shape d_in)) then ret true
  else
    Y <- read_out ;;
    d_out <- attr "d_out" self_d_out ;;
    ret (negb (shape_eqb (shape Y) (shape d_out))).

(** [transform(self, F, G)], lines 157-185. *)
Definition transform (L : Lib) (F : ndarray C) : stmt frame unit :=
  uc <- attr "use_cuda" self_use_cuda ;;
  if (uc : bool) then
    differ <- shapes_differ F ;;
    if (differ : bool) then raise shape_error
    else
      _ <- call (load_global L "cuda_copy_2d_to_2d") ;;
      _ <- attr "dim_grid" self_dim_grid ;;
      _ <- attr "dim_block" self_dim_block ;;
      d_in <- attr "d_in" self_d_in ;;
      set_this (set_d_in (cuda_copy_2d_to_2d F d_in)) ;;
      _ <- attr "blas" self_blas ;;
      d_in <- attr "d_in" self_d_in ;;
      d_M <- attr "d_M" self_d_M ;;
      d_out <- attr "d_out" self_d_out ;;
      set_this (set_d_out (gemm (nrows F) (ncols F) (ncols F)
                                (RtoC 1) d_in d_M (RtoC 0) d_out)) ;;
      _ <- call (load_global L "cuda_copy_2d_to_2d") ;;
      _ <- attr "dim_grid" self_dim_grid ;;
      _ <- attr "dim_block" self_dim_block ;;
      d_out <- attr "d_out" self_d_out ;;
      G <- read_out ;;
      write_out (cuda_copy_2d_to_2d d_out G)
  else
    M <- attr "M" self_M ;;
    G <- read_out ;;
    G' <- call (np_dot F M G) ;;
    write_out G'.

(** [inverse_transform(self, G, F)], lines 188-214. *)
Definition inverse_transform (L : Lib) (G : ndarray C) : stmt frame unit :=
  uc <- attr "use_cuda" self_use_cuda ;;
  if (uc : bool) then
    differ <- shapes_differ G ;;
    if (differ : bool) then raise shape_error
    else
      _ <- call (load_global L "cuda_copy_2d_to_2d") ;;
      _ <- attr "dim_grid" self_dim_grid ;;
      _ <- attr "dim_block" self_dim_block ;;
      d_in <- attr "d_in" self_d_in ;;
      set_this (set_d_in (cuda_copy_2d_to_2d G d_in)) ;;
      _ <- attr "blas" self_blas ;;
      d_in <- attr "d_in" self_d_in ;;
      d_invM <- attr "d_invM" self_d_invM ;;
      d_out <- attr "d_out" self_d_out ;;
      set_this (set_d_out (gemm (nrows G) (ncols G) (ncols G)
                                (RtoC 1) d_in d_invM (RtoC 0) d_out)) ;;
      _ <- call (load_global L "cuda_copy_2d_to_2d") ;;
      _ <- attr "dim_grid" self_dim_grid ;;
      _ <- attr "dim_block" self_dim_block ;;
      d_out <- attr "d_out" self_d_out ;;
      F <- read_out ;;
      write_out (cuda_copy_2d_to_2d d_out F)
  else
    invM <- attr "invM" self_invM ;;
    F <- read_out ;;
    F' <- call (np_dot G invM F) ;;
    write_out F'.

(* ================================================================= *)
(** ** A stand-in for the libraries

    The theorems below hold for every [Lib].  To apply them at concrete
    inputs, this instance stands in for a machine without CUDA: the
    leading-order asymptotics of the Bessel functions and of their zeros
    (McMahon), and closed-form inverses of small matrices. *)

(** The sum of [f 0 .. f (n-1)]. *)
Fixpoint Rsum (f : nat -> R) (n : nat) : R :=
  match n with
  | O => 0
  | S k => Rsum f k + f k
  end.

(** [(k + |n|/2 - 1/4) * pi], [k = 1 .. nt]. *)
Definition asymptotic_jn_zeros (n nt : Z) : result (list R) :=
  if (nt <=? 0)%Z then Raise (ValueError "nt > 0")
  else Ok (map (fun k => (INR k + IZR (Z.abs n) / 2 - 1 / 4) * PI)
               (seq 1 (Z.to_nat nt))).

(** [sqrt(2/(pi x)) * cos(x - n pi/2 - pi/4)] *)
Definition asymptotic_jn (n : Z) (x : R) : R :=
  sqrt (2 / (PI * x)) * cos (x - IZR n * PI / 2 - PI / 4).

Definition singular_matrix {A : Type} : result A :=
  Raise (LibraryError "LinAlgError: Singular matrix").

Definition unsupported_size {A : Type} : result A :=
  Raise (LibraryError "the stand-in handles small matrices only").

(** The inverse of a matrix with at most two rows. *)
Definition small_inv (a : ndarray R) : result (ndarray R) :=
  match nrows a, ncols a with
  | 0%nat, 0%nat => Ok a
  | 1%nat, 1%nat =>
      if Req_dec_T (item a 0 0) 0 then singular_matrix
      else Ok (mk_ndarray 1 1 (fun _ _ => 1 / item a 0 0))
  | 2%nat, 2%nat =>
      let det := item a 0 0 * item a 1 1 - item a 0 1 * item a 1 0 in
      if Req_dec_T det 0 then singular_matrix
      else Ok (mk_ndarray 2 2
                 (fun i j =>
                    match i, j with
                    | 0%nat, 0%nat => item a 1 1 / det
                    | 0%nat, _ => - item a 0 1 / det
                    | _, 0%nat => - item a 1 0 / det
                    | _, _ => item a 0 0 / det
                    end))
  | _, _ => unsupported_size
  end.

(** The pseudo-inverse of a matrix with at most one row: of a row [a],
    the column [a / (a . a)]. *)
Definition small_pinv (a : ndarray R) : result (ndarray R) :=
  match nrows a with
  | 0%nat => Ok (mk_ndarray (ncols a) 0 (fun _ _ => 0))
  | 1%nat =>
      Ok (mk_ndarray (ncols a) 1
            (fun i _ => item a 0 i
                        / Rsum (fun k => item a 0 k * item a 0 k) (ncols a)))
  | _ => unsupported_size
  end.

Definition no_cuda : exn := LibraryError "CUDA is not installed".

Definition stand_in : Lib :=
  mk_Lib false asymptotic_jn_zeros asymptotic_jn small_inv small_pinv
         (fun _ _ _ => 0)
         (Raise no_cuda) (fun _ => Raise no_cuda) (fun _ _ => Raise no_cuda).

(* ================================================================= *)
(** ** The vocabulary of the specification *)

(** What SciPy documents of [jn_zeros(n, nt)]: [nt] positive zeros in
    increasing order. *)
Definition scipy_contract (L : Lib) : Prop :=
  forall n nt zs,
    jn_zeros L n nt = Ok zs ->
    List.length zs = Z.to_nat nt /\ Forall (Rlt 0) zs /\ StronglySorted Rlt zs.

(** When the GPU is requested and CUDA is there, the set-up of lines
    60-69 goes through. *)
Definition gpu_ready (L : Lib) (use_cuda : bool) (Nz Nr : Z) : Prop :=
  use_cuda = true -> cuda_installed L = true ->
  (exists b, cublas_Blas L = Ok b) /\
  (exists z d, np_zeros Nz Nr = Ok z /\ cuda_to_device L z = Ok d) /\
  (exists gb, cuda_tpb_bpg_2d L Nz Nr = Ok gb).

(** A valid construction: [m] is [p-1], [p] or [p+1], [Nr >= 1],
    [rmax > 0], and the libraries deliver. *)
Definition valid_construction (L : Lib) (p m Nr Nz : Z) (rmax : R)
    (use_cuda : bool) : Prop :=
  mode_ok p m = true /\ (1 <= Nr)%Z /\ 0 < rmax /\
  (exists alphas, bessel_zeros L m Nr = Ok alphas) /\
  gpu_ready L use_cuda Nz Nr.


(** No attribute of the grids or the matrices has been assigned. *)
Definition no_grid (s : DHT) : Prop :=
  self_p s = None /\ self_m s = None /\ self_Nr s = None /\
  self_rmax s = None /\ self_nu s = None /\ self_r s = None /\
  self_invM s = None /\ self_M s = None.





(** An object configured for [(Nz, Nr)]: the attributes [__init__]
    assigns have the shapes it gives them.  Only the device buffers of
    a GPU object record [Nz]. *)
Definition configured (s : DHT) (Nz Nr : nat) : Prop :=
  (exists M, self_M s = Some M /\ shape M = (Nr, Nr)) /\
  (exists invM, self_invM s = Some invM /\ shape invM = (Nr, Nr)) /\
  match self_use_cuda s with
  | Some true =>
      (exists d, self_d_in s = Some d /\ shape d = (Nz, Nr)) /\
      (exists d, self_d_out s = Some d /\ shape d = (Nz, Nr))
  | Some false => True
  | None => False
  end.

(** Shape enforcement as the specification words it: an [F] whose shape
    is not [(Nz, Nr)] makes [transform] raise and leaves everything as
    it was. *)
Definition shape_enforced (L : Lib) (s : DHT) (Nz Nr : nat)
    (F G : ndarray C) : Prop :=
  shape F <> (Nz, Nr) ->
  exists e, transform L F (mk_frame s G) = (mk_frame s G, Raise e).

(** A CPU object with a [1 x 1] forward matrix, and two arrays of shape
    [(2, 1)]. *)
Definition unit_matrix : ndarray R := mk_ndarray 1 1 (fun _ _ => 1).

Definition cpu_object : DHT :=
  set_M unit_matrix (set_invM unit_matrix (set_use_cuda false new_DHT)).

Definition zeros_2x1 : ndarray C := mk_ndarray 2 1 (fun _ _ => C0).
Definition ones_2x1 : ndarray C := mk_ndarray 2 1 (fun _ _ => RtoC 1).

(** The two lines the constructor prints when the GPU is asked for and
    CUDA is missing. *)
Definition device_warning : list string :=
  [ "** Cuda not available for Hankel transform.";
    "** Performing the Hankel transform on the CPU." ].

Definition warning_of (L : Lib) (use_cuda : bool) : list string :=
  if use_cuda && negb (cuda_installed L) then device_warning else [].

(** The grids in closed form: what lines 90 and 93 compute when their
    divisions go through. *)
Definition nu_of (rmax : R) (alphas : list R) : list R :=
  map (fun a => 1 / (2 * PI * rmax) * a) alphas.

Definition r_of (rmax : R) (Nr : Z) : list R :=
  map (fun k => rmax * 1 / IZR Nr * (k + 0.5)) (arange Nr).

(** The object once lines 75-115 have run on [s1]. *)
Definition grids_object (s1 : DHT) (p m Nr : Z) (rmax : R) (nu r : list R)
    (invM : ndarray R) : DHT :=
  set_invM invM
    (set_r r (set_nu nu (set_rmax rmax (set_Nr Nr (set_m m (set_p p s1)))))).

(** The items of [invM] as lines 108-115 leave them, in terms of the
    arrays [num] and [denom] of lines 105-106. *)
Definition invM_items (L : Lib) (p m : Z) (rmax : R) (alphas r nu : list R)
    (invM : ndarray R) : Prop :=
  forall i j, (i < nrows invM)%nat -> (j < ncols invM)%nat ->
    ((m = 0%Z \/ (1 <= i)%nat) ->
       item invM i j = jn L p (2 * PI * nth j r 0 * nth i nu 0)
                       / nth i (denom L p m rmax alphas) 0) /\
    (m <> 0%Z -> i = 0%nat -> p = (m - 1)%Z ->
       item invM i j
       = powerRZ (nth j r 0) (m - 1) * 1 / (PI * powerRZ rmax (m + 1))) /\
    (m <> 0%Z -> i = 0%nat -> p <> (m - 1)%Z -> item invM i j = 0).

(** A statement that neither prints nor assigns [self.use_cuda]. *)
Definition keeps {A : Type} (c : py A) : Prop :=
  forall w w' res, c w = (w', res) ->
    stdout w' = stdout w /\ self_use_cuda (self w') = self_use_cuda (self w).

(** [transform] and [inverse_transform] never assign [self.use_cuda]. *)
Definition keeps_mode {A : Type} (c : stmt frame A) : Prop :=
  forall w w' res, c w = (w', res) ->
    self_use_cuda (this w') = self_use_cuda (this w).

(* ================================================================= *)
(** ** Further vocabulary *)

(** The library [L] with other contents in the memory [np.empty] hands
    out. *)
Definition with_memory (L : Lib) (u : nat -> nat -> nat -> R) : Lib :=
  mk_Lib (cuda_installed L) (jn_zeros L) (jn L) (linalg_inv L)
         (linalg_pinv L) u (cublas_Blas L) (cuda_to_device L)
         (cuda_tpb_bpg_2d L).

(** A stand-in for a machine with CUDA: the device copy of an array
    holds the array's values, and one thread block covers the grid. *)
Definition stand_in_gpu : Lib :=
  mk_Lib true asymptotic_jn_zeros asymptotic_jn small_inv small_pinv
         (fun _ _ _ => 0)
         (Ok BlasHandle) (fun a => Ok a)
         (fun Nz Nr => Ok ((1%nat, 1%nat), (Z.to_nat Nz, Z.to_nat Nr))).

(** A GPU object for [(Nz, Nr)] with the matrices [M] and [invM], as
    lines 60-69 and 125-132 assign its attributes: the cuBLAS handle, the
    launch configuration, the two buffers of shape [(Nz, Nr)], and the
    device copies of the matrices, which hold their values as complex
    numbers. *)
Definition gpu_object (s : DHT) (Nz Nr : nat) (M invM : ndarray R) : Prop :=
  self_use_cuda s = Some true /\
  (exists b, self_blas s = Some b) /\
  (exists g, self_dim_grid s = Some g) /\
  (exists b, self_dim_block s = Some b) /\
  (exists d, self_d_in s = Some d /\ shape d = (Nz, Nr)) /\
  (exists d, self_d_out s = Some d /\ shape d = (Nz, Nr)) /\
  self_M s = Some M /\ shape M = (Nr, Nr) /\
  self_invM s = Some invM /\ shape invM = (Nr, Nr) /\
  (exists d, self_d_M s = Some d /\ same_array d (astype_complex M)) /\
  (exists d, self_d_invM s = Some d /\ same_array d (astype_complex invM)).

(** A GPU object for [(Nz, Nr) = (2, 1)] with [1 x 1] matrices. *)
Definition gpu_object_2x1 : DHT :=
  set_d_invM (astype_complex unit_matrix)
    (set_d_M (astype_complex unit_matrix)
       (set_M unit_matrix
          (set_invM unit_matrix
             (set_dim_block (2%nat, 1%nat)
                (set_dim_grid (1%nat, 1%nat)
                   (set_d_out zeros_2x1
                      (set_d_in zeros_2x1
                         (set_blas BlasHandle (set_use_cuda true new_DHT))))))))).

(** Two objects differ at most in their device buffers [d_in] and
    [d_out]. *)
Definition same_but_buffers (s s' : DHT) : Prop :=
  self_use_cuda s' = self_use_cuda s /\ self_blas s' = self_blas s /\
  self_dim_grid s' = self_dim_grid s /\ self_dim_block s' = self_dim_block s /\
  self_p s' = self_p s /\ self_m s' = self_m s /\ self_Nr s' = self_Nr s /\
  self_rmax s' = self_rmax s /\ self_nu s' = self_nu s /\ self_r s' = self_r s /\
  self_invM s' = self_invM s /\ self_M s' = self_M s /\
  self_d_M s' = self_d_M s /\ self_d_invM s' = self_d_invM s.

(** A method statement that assigns no attribute but [d_in], [d_out]. *)
Definition keeps_attrs {A : Type} (c : stmt frame A) : Prop :=
  forall w w' res, c w = (w', res) -> same_but_buffers (this w) (this w').

(** [a + b] and [c * a] on complex arrays, item by item. *)
Definition array_add (a b : ndarray C) : ndarray C :=
  mk_ndarray (nrows a) (ncols a) (fun i j => Cadd (item a i j) (item b i j)).

Definition array_scale (c : C) (a : ndarray C) : ndarray C :=
  mk_ndarray (nrows a) (ncols a) (fun i j => Cmul c (item a i j)).

(* ================================================================= *)
(** ** [dens_func] of [docs/example_input/boosted_frame_sim.py]

    The density profile the example script hands to the simulation
    (lines 87-114).  It reads the module's globals [ramp_up], [plateau],
    [ramp_down] (Python floats, as lines 64-66 and 82-83 leave them) and
    [rel_delta_n_over_w2] (line 85) when it is called: they are
    parameters here. *)

(** [np.where(c, a, b)] on 1-D arrays of one length. *)
Fixpoint np_where (c : list bool) (a b : list R) : list R :=
  match c, a, b with
  | ci :: c', ai :: a', bi :: b' =>
      (if ci then ai else bi) :: np_where c' a' b'
  | _, _, _ => []
  end.

(** [a * b] on 1-D arrays, with NumPy's broadcasting. *)
Definition np_multiply (a b : list R) : result (list R) :=
  if Nat.eqb (List.length a) (List.length b)
  then Ok (map (fun ab => fst ab * snd ab) (combine a b))
  else if Nat.eqb (List.length b) 1
  then Ok (map (fun x => x * nth 0 b 0) a)
  else if Nat.eqb (List.length a) 1
  then Ok (map (fun y => nth 0 a 0 * y) b)
  else Raise (ValueError "operands could not be broadcast together").

(** [z < x], [z >= x] on an array and a scalar. *)
Definition np_less (z : list R) (x : R) : list bool :=
  map (fun zi => if Rlt_dec zi x then true else false) z.

Definition np_greater_equal (z : list R) (x : R) : list bool :=
  map (fun zi => if Rge_dec zi x then true else false) z.

(** [a & b] on boolean arrays of one length. *)
Definition np_and (a b : list bool) : list bool :=
  map (fun ab => andb (fst ab) (snd ab)) (combine a b).

Definition dens_func (ramp_up plateau ramp_down rel_delta_n_over_w2 : R)
    (z r : list R) : result (list R) :=
  (* n = np.ones_like(z) *)
  let n := map (fun _ => 1) z in
  (* inv_ramp_up = 1./ramp_up *)
  rbind (py_div 1 ramp_up) (fun inv_ramp_up =>
  (* n = np.where( z<ramp_up, z*inv_ramp_up, n ) *)
  let n := np_where (np_less z ramp_up)
                    (map (fun zi => zi * inv_ramp_up) z) n in
  (* inv_ramp_down = 1./ramp_down *)
  rbind (py_div 1 ramp_down) (fun inv_ramp_down =>
  (* n = np.where( (z >= ramp_up+plateau) & (z < ramp_up+plateau+ramp_down),
                   - (z - (ramp_up+plateau+ramp_down) )*inv_ramp_down, n ) *)
  let n := np_where
             (np_and (np_greater_equal z (ramp_up + plateau))
                     (np_less z (ramp_up + plateau + ramp_down)))
             (map (fun zi =>
                     - (zi - (ramp_up + plateau + ramp_down)) * inv_ramp_down) z)
             n in
  (* n = n * ( 1. + rel_delta_n_over_w2 * r**2 ) *)
  np_multiply n (map (fun ri => 1 + rel_delta_n_over_w2 * ri ^ 2) r))).

(** The longitudinal profile in closed form: up ramp, plateau, down
    ramp, and 1 again from the end of the down ramp on. *)
Definition ramp_profile (ramp_up plateau ramp_down z : R) : R :=
  if Rlt_dec z ramp_up then z / ramp_up
  else if Rlt_dec z (ramp_up + plateau) then 1
  else if Rlt_dec z (ramp_up + plateau + ramp_down)
  then (ramp_up + plateau + ramp_down - z) / ramp_down
  else 1.

(* ================================================================= *)
(** * Proofs *)

Lemma py_div_ok a b : b <> 0 -> py_div a b = Ok (a / b).
Proof. intros Hb. unfold py_div. destruct (Req_dec_T b 0); [contradiction | reflexivity]. Qed.

Lemma py_pow_ok x n : x <> 0 -> py_pow x n = Ok (powerRZ x n).
Proof. intros Hx. unfold py_pow. destruct (Req_dec_T x 0); [contradiction | reflexivity]. Qed.

Lemma size_N_raises L : size_N L = Raise (NameError "N").
Proof. unfold size_N, load_global, module_globals. destruct (cuda_installed L); reflexivity. Qed.

Lemma np_empty_ok L a n k : (0 <= n)%Z -> (0 <= k)%Z ->
  np_empty L a n k = Ok (mk_ndarray (Z.to_nat n) (Z.to_nat k) (uninitialized L a)).
Proof.
  intros Hn Hk. unfold np_empty.
  destruct (Z.ltb_spec n 0); [lia|]. destruct (Z.ltb_spec k 0); [lia|]. reflexivity.
Qed.

Lemma arange_length n : List.length (arange n) = Z.to_nat n.
Proof. unfold arange. now rewrite length_map, length_seq. Qed.

Section Steps.
Context {S A B : Type}.

Lemma bind_ret (a : A) (k : A -> stmt S B) w : bind (ret a) k w = k a w.
Proof. reflexivity. Qed.

Lemma bind_raise (e : exn) (k : A -> stmt S B) w :
  bind (raise e) k w = (w, Raise e).
Proof. reflexivity. Qed.

Lemma bind_call_ok (c : result A) (a : A) (k : A -> stmt S B) w :
  c = Ok a -> bind (call c) k w = k a w.
Proof. intros ->. reflexivity. Qed.

Lemma bind_call_raise (c : result A) (e : exn) (k : A -> stmt S B) w :
  c = Raise e -> bind (call c) k w = (w, Raise e).
Proof. intros ->. reflexivity. Qed.

Lemma bind_assoc {A' : Type} (c : stmt S A') (k : A' -> stmt S A)
    (k' : A -> stmt S B) w :
  bind (bind c k) k' w = bind c (fun a => bind (k a) k') w.
Proof. unfold bind. destruct (c w) as [w' [a|e]]; reflexivity. Qed.
End Steps.

Lemma bind_setattr {B} upd (k : unit -> py B) w :
  bind (setattr upd) k w = k tt (mk_world (upd (self w)) (stdout w)).
Proof. reflexivity. Qed.

Lemma bind_print {B} s (k : unit -> py B) w :
  bind (print s) k w = k tt (mk_world (self w) (stdout w ++ [s])).
Proof. reflexivity. Qed.

Lemma bind_getattr {A B} name (get : DHT -> option A) a (k : A -> py B) w :
  get (self w) = Some a -> bind (getattr name get) k w = k a w.
Proof. intros H. unfold bind, getattr. now rewrite H. Qed.

Ltac attrs :=
  cbn [self stdout this out
       self_use_cuda self_blas self_d_in self_d_out self_dim_grid
       self_dim_block self_p self_m self_Nr self_rmax self_nu self_r
       self_invM self_M self_d_M self_d_invM
       set_use_cuda set_blas set_d_in set_d_out set_dim_grid set_dim_block
       set_p set_m set_Nr set_rmax set_nu set_r set_invM set_M set_d_M
       set_d_invM] in *.

Ltac step :=
  first
    [ rewrite bind_assoc
    | rewrite bind_setattr
    | rewrite bind_print
    | rewrite bind_ret
    | rewrite bind_raise
    | erewrite bind_getattr by (attrs; first [eassumption | reflexivity]) ];
  attrs.


Lemma bcast_ix_id n i : (i < n)%nat -> bcast_ix n i = i.
Proof.
  intros H. unfold bcast_ix. destruct (Nat.eqb_spec n 1); [lia | reflexivity].
Qed.

Lemma nth_tl {A} (l : list A) i d : nth i (tl l) d = nth (S i) l d.
Proof. destruct l; [destruct i|]; reflexivity. Qed.

Lemma nth_map_in {A B} (f : A -> B) l i d d' :
  (i < List.length l)%nat -> nth i (map f l) d' = f (nth i l d).
Proof.
  intros H. rewrite (nth_indep _ d' (f d)) by (now rewrite length_map).
  apply map_nth.
Qed.


Lemma calc_invM_runs L p m Nr rmax alphas s o r nu :
  (1 <= Nr)%Z -> rmax <> 0 ->
  self_r s = Some r -> self_nu s = Some nu ->
  List.length r = Z.to_nat Nr -> List.length nu = Z.to_nat Nr ->
  exists invM,
    calc_invM L p m Nr rmax alphas (mk_world s o) = (mk_world (set_invM invM s) o, Ok tt)
    /\ shape invM = (Z.to_nat Nr, Z.to_nat Nr)
    /\ invM_items L p m rmax alphas r nu invM.
Proof.
  intros HNr Hrmax Hr Hnu Hlr Hlnu.
  assert (Hpos : (0 < Z.to_nat Nr)%nat) by lia.
  unfold calc_invM.
  erewrite bind_call_ok by (apply np_empty_ok; lia).
  do 3 step.
  destruct (Z.eqb_spec m 0) as [Hm|Hm]; cbn [negb].
  - step. erewrite bind_call_ok.
    2:{ unfold setitem_block. cbn [nrows ncols div_rows rows_from_1 num].
        rewrite Hlr, Hlnu. unfold bcast_ok. rewrite !Nat.sub_0_r, !Nat.eqb_refl. reflexivity. }
    eexists. split; [reflexivity|]. split; [reflexivity|].
    intros i j Hi Hj. cbn [nrows ncols item div_rows num] in *.
    rewrite ?Hlr, ?Hlnu, !Nat.sub_0_r, !bcast_ix_id by assumption. cbn [Nat.leb andb].
    repeat split; intros; try contradiction; reflexivity.
  - step. erewrite bind_call_ok.
    2:{ unfold setitem_block. cbn [nrows ncols div_rows rows_from_1 num].
        rewrite Hlr, Hlnu. unfold bcast_ok. rewrite !Nat.sub_0_r, !Nat.eqb_refl. reflexivity. }
    step.
    assert (Hblock : forall i j, (1 <= i < Z.to_nat Nr)%nat -> (j < Z.to_nat Nr)%nat ->
      item (div_rows (rows_from_1 (num L p r nu)) (tl (denom L p m rmax alphas)))
        (bcast_ix (Z.to_nat Nr - 1) (i - 1)) (bcast_ix (Z.to_nat Nr) (j - 0))
      = jn L p (2 * PI * nth j r 0 * nth i nu 0) / nth i (denom L p m rmax alphas) 0).
    { intros i j Hi Hj. rewrite Nat.sub_0_r, !bcast_ix_id by lia.
      cbn [item div_rows rows_from_1 num]. rewrite nth_tl.
      replace (S (i - 1)) with i by lia. reflexivity. }
    destruct (Z.eqb_spec p (m - 1)) as [Hp|Hp].
    + step. erewrite bind_call_ok by (unfold axis_row; rewrite py_pow_ok by assumption; reflexivity).
      step. erewrite bind_call_ok.
      2:{ unfold setitem_row. cbn [nrows ncols]. rewrite length_map, Hlr.
          replace (0 <? Z.to_nat Nr)%nat with true by (symmetry; apply Nat.ltb_lt; lia).
          unfold bcast_ok. rewrite Nat.eqb_refl. reflexivity. }
      eexists. split; [reflexivity|]. split; [reflexivity|].
      intros i j Hi Hj. cbn [nrows ncols item] in *.
      repeat split.
      * intros [?|Hi1]; [contradiction|].
        destruct (Nat.eqb_spec i 0); [lia|].
        replace (1 <=? i)%nat with true by (symmetry; apply Nat.leb_le; lia).
        cbn [andb Nat.leb]. apply Hblock; lia.
      * intros _ -> _. cbn [Nat.eqb]. rewrite ?length_map, ?Hlr, bcast_ix_id by assumption.
        rewrite (nth_map_in _ _ _ 0) by lia. reflexivity.
      * intros; contradiction.
    + step. erewrite bind_call_ok.
      2:{ unfold fill_row. cbn [nrows ncols].
          replace (0 <? Z.to_nat Nr)%nat with true by (symmetry; apply Nat.ltb_lt; lia).
          reflexivity. }
      eexists. split; [reflexivity|]. split; [reflexivity|].
      intros i j Hi Hj. cbn [nrows ncols item] in *.
      repeat split.
      * intros [?|Hi1]; [contradiction|].
        destruct (Nat.eqb_spec i 0); [lia|].
        replace (1 <=? i)%nat with true by (symmetry; apply Nat.leb_le; lia).
        cbn [andb Nat.leb]. apply Hblock; lia.
      * intros; contradiction.
      * intros _ -> _. reflexivity.
Qed.



Ltac crunch_result :=
  repeat match goal with
         | |- context [match ?c with Ok _ => _ | Raise _ => _ end] =>
             destruct c eqn:?
         end.

(** Lines 53-69 assign none of the grid attributes, however they end. *)
Lemma register_gpu_no_grid L use_cuda Nz Nr w res :
  register_gpu L use_cuda Nz Nr new_world = (w, res) ->
  no_grid (self w) /\ stdout w = warning_of L use_cuda /\
  (use_cuda && cuda_installed L = false -> res = Ok tt /\ self_use_cuda (self w) = Some false).
Proof.
  unfold register_gpu, warning_of.
  destruct use_cuda, (cuda_installed L) eqn:Hc; cbn [Bool.eqb andb negb];
    unfold new_world; repeat (step; cbn [Bool.eqb andb negb]).
  2-4: intros [= <- <-]; unfold no_grid; cbn; auto 10.
  unfold load_global, module_globals. rewrite Hc. cbn -[np_zeros].
  unfold bind, call, setattr. 
  destruct (cublas_Blas L); [|intros [= <- <-]; unfold no_grid; cbn; intuition discriminate].
  destruct (np_zeros Nz Nr); [|intros [= <- <-]; unfold no_grid; cbn; intuition discriminate].
  destruct (cuda_to_device L a0); [|intros [= <- <-]; unfold no_grid; cbn; intuition discriminate].
  destruct (cuda_tpb_bpg_2d L Nz Nr); intros [= <- <-]; unfold no_grid; cbn; intuition discriminate.
Qed.

Lemma register_gpu_runs L use_cuda Nz Nr :
  gpu_ready L use_cuda Nz Nr ->
  exists s1,
    register_gpu L use_cuda Nz Nr new_world = (mk_world s1 (warning_of L use_cuda), Ok tt)
    /\ no_grid s1 /\ self_use_cuda s1 = Some (use_cuda && cuda_installed L).
Proof.
  intros Hg. unfold register_gpu, warning_of.
  destruct use_cuda, (cuda_installed L) eqn:Hc; cbn [Bool.eqb andb negb];
    unfold new_world; repeat (step; cbn [Bool.eqb andb negb]).
  2-4: eexists; split; [reflexivity|]; unfold no_grid; cbn; auto 10.
  destruct (Hg eq_refl Hc) as [[b Hb] [[z [d [Hz Hd]]] [gb Hgb]]].
  erewrite bind_call_ok by (unfold load_global, module_globals; rewrite Hc; reflexivity).
  erewrite bind_call_ok by eassumption. step.
  erewrite bind_call_ok by eassumption.
  erewrite bind_call_ok by (unfold load_global, module_globals; rewrite Hc; reflexivity).
  erewrite bind_call_ok by eassumption. step.
  erewrite bind_call_ok by eassumption. step.
  erewrite bind_call_ok by (unfold load_global, module_globals; rewrite Hc; reflexivity).
  erewrite bind_call_ok by eassumption. step.
  eexists; split; [reflexivity|]; unfold no_grid; cbn; auto 10.
Qed.



Lemma spectral_grid_ok rmax alphas : rmax <> 0 ->
  spectral_grid rmax alphas = Ok (nu_of rmax alphas).
Proof.
  intros H. unfold spectral_grid. rewrite py_div_ok; [reflexivity|].
  pose proof PI_neq0. nra.
Qed.

Lemma spatial_grid_ok rmax Nr : (1 <= Nr)%Z ->
  spatial_grid rmax Nr = Ok (r_of rmax Nr).
Proof.
  intros H. unfold spatial_grid. rewrite py_div_ok; [reflexivity|].
  apply not_0_IZR. lia.
Qed.

Lemma tail_runs L p m Nr rmax alphas s1 o1 :
  mode_ok p m = true -> (1 <= Nr)%Z -> rmax <> 0 ->
  bessel_zeros L m Nr = Ok alphas -> List.length alphas = Z.to_nat Nr ->
  exists invM,
    (check_mode p m ;; register_args p m Nr rmax ;;
     alphas <- call (bessel_zeros L m Nr) ;;
     nu <- call (spectral_grid rmax alphas) ;; setattr (set_nu nu) ;;
     r <- call (spatial_grid rmax Nr) ;; setattr (set_r r) ;;
     calc_invM L p m Nr rmax alphas) (mk_world s1 o1)
    = (mk_world (grids_object s1 p m Nr rmax (nu_of rmax alphas) (r_of rmax Nr) invM) o1, Ok tt)
    /\ shape invM = (Z.to_nat Nr, Z.to_nat Nr)
    /\ invM_items L p m rmax alphas (r_of rmax Nr) (nu_of rmax alphas) invM.
Proof.
  intros Hmode HNr Hrmax Hz Hlen.
  unfold check_mode, register_args. rewrite Hmode. cbn [Bool.eqb].
  repeat step.
  erewrite bind_call_ok by eassumption.
  erewrite bind_call_ok by (apply spectral_grid_ok; assumption). step.
  erewrite bind_call_ok by (apply spatial_grid_ok; assumption). step.
  edestruct (calc_invM_runs L p m Nr rmax alphas) as [invM [Hrun Hrest]];
    [eassumption | eassumption | | | | | exists invM; split; [exact Hrun | exact Hrest] ].
  - reflexivity.
  - reflexivity.
  - unfold r_of. now rewrite length_map, arange_length.
  - unfold nu_of. now rewrite length_map.
Qed.

(* ---------------- the whole prefix ---------------- *)

Lemma prefix_unfold L p m Nr Nz rmax use_cuda w0 :
  init_grids_and_invM L p m Nr Nz rmax use_cuda w0
  = bind (register_gpu L use_cuda Nz Nr)
      (fun _ =>
     check_mode p m ;; register_args p m Nr rmax ;;
     alphas <- call (bessel_zeros L m Nr) ;;
     nu <- call (spectral_grid rmax alphas) ;; setattr (set_nu nu) ;;
     r <- call (spatial_grid rmax Nr) ;; setattr (set_r r) ;;
     calc_invM L p m Nr rmax alphas) w0.
Proof. reflexivity. Qed.

Lemma prefix_runs L p m Nr Nz rmax use_cuda alphas :
  mode_ok p m = true -> (1 <= Nr)%Z -> rmax <> 0 ->
  bessel_zeros L m Nr = Ok alphas -> List.length alphas = Z.to_nat Nr ->
  gpu_ready L use_cuda Nz Nr ->
  exists s1 invM,
    init_grids_and_invM L p m Nr Nz rmax use_cuda new_world
    = (mk_world (grids_object s1 p m Nr rmax (nu_of rmax alphas) (r_of rmax Nr) invM)
                (warning_of L use_cuda), Ok tt)
    /\ no_grid s1
    /\ self_use_cuda s1 = Some (use_cuda && cuda_installed L)
    /\ shape invM = (Z.to_nat Nr, Z.to_nat Nr)
    /\ invM_items L p m rmax alphas (r_of rmax Nr) (nu_of rmax alphas) invM.
Proof.
  intros Hmode HNr Hrmax Hz Hlen Hgpu.
  destruct (register_gpu_runs L use_cuda Nz Nr Hgpu) as [s1 [Hrun [Hng Huc]]].
  destruct (tail_runs L p m Nr rmax alphas s1 (warning_of L use_cuda)
              Hmode HNr Hrmax Hz Hlen) as [invM [Htail [Hsh Hit]]].
  exists s1, invM. rewrite prefix_unfold. unfold bind at 1. rewrite Hrun.
  split; [exact Htail|]. auto.
Qed.

Lemma init_stops_at_N L p m Nr Nz rmax use_cuda w0 w :
  init_grids_and_invM L p m Nr Nz rmax use_cuda w0 = (w, Ok tt) ->
  DHT_init L p m Nr Nz rmax use_cuda w0 = (w, Raise (NameError "N")).
Proof.
  intros H. unfold DHT_init, DHT_init_sized. unfold bind at 1. rewrite H.
  now rewrite (bind_call_raise _ (NameError "N")) by apply size_N_raises.
Qed.

Lemma init_stops_early L p m Nr Nz rmax use_cuda w0 w e :
  init_grids_and_invM L p m Nr Nz rmax use_cuda w0 = (w, Raise e) ->
  DHT_init L p m Nr Nz rmax use_cuda w0 = (w, Raise e).
Proof.
  intros H. unfold DHT_init, DHT_init_sized. unfold bind at 1. now rewrite H.
Qed.

Lemma init_never_returns L p m Nr Nz rmax use_cuda w0 :
  exists w e, DHT_init L p m Nr Nz rmax use_cuda w0 = (w, Raise e).
Proof.
  destruct (init_grids_and_invM L p m Nr Nz rmax use_cuda w0) as [w [[]|e]] eqn:H.
  - exists w, (NameError "N"). now apply init_stops_at_N.
  - exists w, e. now apply init_stops_early.
Qed.


Lemma bessel_zeros_length L m Nr alphas :
  scipy_contract L -> (1 <= Nr)%Z -> bessel_zeros L m Nr = Ok alphas ->
  List.length alphas = Z.to_nat Nr.
Proof.
  intros HL HNr. unfold bessel_zeros.
  destruct (negb (m =? 0)%Z).
  - destruct (jn_zeros L m (Nr - 1)) as [zs|e] eqn:Hz; cbn; [|discriminate].
    intros [= <-]. destruct (HL _ _ _ Hz) as [Hlen _]. cbn. rewrite Hlen. lia.
  - intros Hz. now destruct (HL _ _ _ Hz).
Qed.

Lemma valid_runs L p m Nr Nz rmax use_cuda :
  scipy_contract L -> valid_construction L p m Nr Nz rmax use_cuda ->
  exists alphas s1 invM,
    bessel_zeros L m Nr = Ok alphas
    /\ List.length alphas = Z.to_nat Nr
    /\ init_grids_and_invM L p m Nr Nz rmax use_cuda new_world
       = (mk_world (grids_object s1 p m Nr rmax (nu_of rmax alphas) (r_of rmax Nr) invM)
                (warning_of L use_cuda), Ok tt)
    /\ no_grid s1
    /\ self_use_cuda s1 = Some (use_cuda && cuda_installed L)
    /\ shape invM = (Z.to_nat Nr, Z.to_nat Nr)
    /\ invM_items L p m rmax alphas (r_of rmax Nr) (nu_of rmax alphas) invM.
Proof.
  intros HL (Hmode & HNr & Hrmax & [alphas Hz] & Hgpu).
  assert (Hlen := bessel_zeros_length L m Nr alphas HL HNr Hz).
  destruct (prefix_runs L p m Nr Nz rmax use_cuda alphas Hmode HNr
              ltac:(lra) Hz Hlen Hgpu) as (s1 & invM & H).
  exists alphas, s1, invM. auto.
Qed.


(* ---------------- sorted lists ---------------- *)

Lemma sorted_map_seq (f : nat -> R) :
  (forall i j, (i < j)%nat -> f i < f j) ->
  forall n a, StronglySorted Rlt (map f (seq a n)).
Proof.
  intros Hf. induction n as [|n IH]; intros a; cbn.
  - constructor.
  - constructor; [apply IH|].
    apply Forall_forall. intros x Hx. apply in_map_iff in Hx.
    destruct Hx as [k [<- Hk]]. apply in_seq in Hk. apply Hf. lia.
Qed.








Lemma mode_ok_false p m :
  m <> (p - 1)%Z -> m <> p -> m <> (p + 1)%Z -> mode_ok p m = false.
Proof.
  intros H1 H2 H3. unfold mode_ok. cbn.
  destruct (Z.eqb_spec m (p - 1)), (Z.eqb_spec m p), (Z.eqb_spec m (p + 1));
    try contradiction; reflexivity.
Qed.

(** C5.  For every [p] and every [m] outside [{p-1, p, p+1}], whatever
    the other arguments, construction raises: no object is returned and
    none of the grid or matrix attributes has been assigned.  The
    exception is [ValueError('m must be either p-1, p or p+1')] whenever
    the GPU set-up of lines 60-69, which runs first, goes through (it
    always does on the CPU). *)
Theorem invalid_mode_raises L p m Nr Nz rmax use_cuda :
  m <> (p - 1)%Z -> m <> p -> m <> (p + 1)%Z ->
  exists w e,
    DHT_init L p m Nr Nz rmax use_cuda new_world = (w, Raise e)
    /\ construct L p m Nr Nz rmax use_cuda = Raise e
    /\ no_grid (self w)
    /\ (gpu_ready L use_cuda Nz Nr -> e = invalid_mode).
Proof.
  intros H1 H2 H3. pose proof (mode_ok_false p m H1 H2 H3) as Hmode.
  destruct (register_gpu L use_cuda Nz Nr new_world) as [w1 res1] eqn:Hgpu.
  destruct (register_gpu_no_grid _ _ _ _ _ _ Hgpu) as (Hng & _ & _).
  assert (Hpre : exists e,
             init_grids_and_invM L p m Nr Nz rmax use_cuda new_world = (w1, Raise e)
             /\ (gpu_ready L use_cuda Nz Nr -> e = invalid_mode)).
  { rewrite prefix_unfold. unfold bind at 1. rewrite Hgpu.
    destruct res1 as [[]|e].
    - exists invalid_mode. unfold check_mode. rewrite Hmode. cbn [Bool.eqb].
      rewrite bind_raise. auto.
    - exists e. split; [reflexivity|]. intros Hg.
      destruct (register_gpu_runs L use_cuda Nz Nr Hg) as (s1 & Hrun & _).
      rewrite Hrun in Hgpu. discriminate. }
  destruct Hpre as (e & Hpre & He).
  apply init_stops_early in Hpre.
  exists w1, e. split; [exact Hpre|]. split; [|auto].
  unfold construct. now rewrite Hpre.
Qed.

Lemma stand_in_contract : scipy_contract stand_in.
Proof.
  intros n nt zs. cbn. unfold asymptotic_jn_zeros.
  destruct (nt <=? 0)%Z; [discriminate|]. intros [= <-].
  split; [now rewrite length_map, length_seq|]. split.
  - apply Forall_forall. intros x Hx. apply in_map_iff in Hx.
    destruct Hx as [k [<- Hk]]. apply in_seq in Hk.
    assert (1 <= INR k) by (replace 1 with (INR 1) by reflexivity; apply le_INR; lia).
    assert (0 <= IZR (Z.abs n)) by (apply IZR_le; lia).
    pose proof PI_RGT_0. apply Rmult_lt_0_compat; lra.
  - apply sorted_map_seq. intros i j Hij. apply lt_INR in Hij.
    pose proof PI_RGT_0. apply Rmult_lt_compat_r; lra.
Qed.

Lemma r_of_1_4 : r_of 1 4 = [0.125; 0.375; 0.625; 0.875].
Proof.
  unfold r_of, arange. change (Z.to_nat 4) with 4%nat. cbn [seq map INR].
  repeat (f_equal; try lra).
Qed.

(** C2.  The code at [p=0, m=0, Nr=4, rmax=1.0] on the CPU: the grids
    are computed, [r = [0.125, 0.375, 0.625, 0.875]] and [nu] is the
    four zeros that [jn_zeros(0, 4)] returns divided by [2 pi rmax], but
    the construction does not succeed; it raises [NameError] at line 118
    and no [M] exists. *)
Theorem concrete_scenario_raises L Nz zs :
  scipy_contract L -> jn_zeros L 0 4 = Ok zs ->
  exists w,
    DHT_init L 0 0 4 Nz 1 false new_world = (w, Raise (NameError "N"))
    /\ construct L 0 0 4 Nz 1 false = Raise (NameError "N")
    /\ get_r (self w) = Ok [0.125; 0.375; 0.625; 0.875]
    /\ get_nu (self w) = Ok (map (fun z => 1 / (2 * PI * 1) * z) zs)
    /\ self_M (self w) = None.
Proof.
  intros HL Hz.
  assert (Hv : valid_construction L 0 0 4 Nz 1 false).
  { split; [reflexivity|]. split; [lia|]. split; [lra|].
    split; [exists zs; exact Hz | intros [=]]. }
  destruct (valid_runs L 0 0 4 Nz 1 false HL Hv)
    as (alphas & s1 & invM & Hz' & _ & Hrun & Hng & _).
  cbn in Hz'. rewrite Hz in Hz'. injection Hz' as <-.
  apply init_stops_at_N in Hrun.
  eexists. split; [exact Hrun|]. split; [unfold construct; now rewrite Hrun|].
  cbn [self]. split; [unfold get_r, grids_object; attrs; now rewrite r_of_1_4|].
  split; [reflexivity|]. cbn. apply Hng.
Qed.

(** C2 at the stand-in libraries. *)
Lemma concrete_scenario_raises_witness :
  exists w,
    DHT_init stand_in 0 0 4 1 1 false new_world = (w, Raise (NameError "N"))
    /\ construct stand_in 0 0 4 1 1 false = Raise (NameError "N")
    /\ get_r (self w) = Ok [0.125; 0.375; 0.625; 0.875]
    /\ get_nu (self w)
       = Ok (map (fun z => 1 / (2 * PI * 1) * z)
               (map (fun k => (INR k + IZR (Z.abs 0) / 2 - 1 / 4) * PI) (seq 1 4)))
    /\ self_M (self w) = None.
Proof.
  apply (concrete_scenario_raises stand_in 1 _ stand_in_contract).
  reflexivity.
Defined.

Lemma stand_in_valid_0_0_4 : valid_construction stand_in 0 0 4 1 1 false.
Proof.
  split; [reflexivity|]. split; [lia|]. split; [lra|].
  split; [eexists; reflexivity | intros [=]].
Defined.


Lemma bind_attr {A B} name (get : DHT -> option A) a (k : A -> stmt frame B) w :
  get (this w) = Some a -> bind (attr name get) k w = k a w.
Proof. intros H. unfold bind, attr. now rewrite H. Qed.

Lemma shape_eqb_eq s t : shape_eqb s t = true <-> s = t.
Proof.
  destruct s as [a b], t as [c d]. unfold shape_eqb. cbn.
  rewrite andb_true_iff, !Nat.eqb_eq. split; [intros [-> ->]; reflexivity | intros [= -> ->]; auto].
Qed.

Lemma shape_eqb_neq s t : shape_eqb s t = false <-> s <> t.
Proof.
  rewrite <- shape_eqb_eq. destruct (shape_eqb s t); split; congruence.
Qed.

(** the CPU branch *)
Lemma transform_cpu L s F G M :
  self_use_cuda s = Some false -> self_M s = Some M ->
  transform L F (mk_frame s G)
  = match np_dot F M G with
    | Ok G' => (mk_frame s G', Ok tt)
    | Raise e => (mk_frame s G, Raise e)
    end.
Proof.
  intros Hu HM. unfold transform.
  erewrite bind_attr by (cbn; exact Hu). cbv beta iota.
  erewrite bind_attr by (cbn; exact HM).
  unfold bind, read_out, call, write_out. cbn.
  destruct (np_dot F M G); reflexivity.
Qed.

Lemma inverse_transform_cpu L s G F invM :
  self_use_cuda s = Some false -> self_invM s = Some invM ->
  inverse_transform L G (mk_frame s F)
  = match np_dot G invM F with
    | Ok F' => (mk_frame s F', Ok tt)
    | Raise e => (mk_frame s F, Raise e)
    end.
Proof.
  intros Hu HM. unfold inverse_transform.
  erewrite bind_attr by (cbn; exact Hu). cbv beta iota.
  erewrite bind_attr by (cbn; exact HM).
  unfold bind, read_out, call, write_out. cbn.
  destruct (np_dot G invM F); reflexivity.
Qed.

Lemma shapes_differ_true X s G d_in d_out :
  self_d_in s = Some d_in -> self_d_out s = Some d_out ->
  shape X <> shape d_in \/ shape G <> shape d_out ->
  shapes_differ X (mk_frame s G) = (mk_frame s G, Ok true).
Proof.
  intros Hi Ho Hd. unfold shapes_differ.
  erewrite bind_attr by (cbn; exact Hi).
  destruct (shape_eqb (shape X) (shape d_in)) eqn:E; cbn [negb]; [|reflexivity].
  unfold bind at 1, read_out. cbn [out].
  erewrite bind_attr by (cbn; exact Ho).
  apply shape_eqb_eq in E.
  destruct Hd as [Hd|Hd]; [contradiction|].
  apply shape_eqb_neq in Hd. now rewrite Hd.
Qed.

Lemma transform_gpu_mismatch L s F G d_in d_out :
  self_use_cuda s = Some true ->
  self_d_in s = Some d_in -> self_d_out s = Some d_out ->
  shape F <> shape d_in \/ shape G <> shape d_out ->
  transform L F (mk_frame s G) = (mk_frame s G, Raise shape_error).
Proof.
  intros Hu Hi Ho Hd. unfold transform.
  erewrite bind_attr by (cbn; exact Hu). cbv beta iota.
  unfold bind at 1. now rewrite (shapes_differ_true _ _ _ _ _ Hi Ho Hd).
Qed.

Lemma inverse_transform_gpu_mismatch L s G F d_in d_out :
  self_use_cuda s = Some true ->
  self_d_in s = Some d_in -> self_d_out s = Some d_out ->
  shape G <> shape d_in \/ shape F <> shape d_out ->
  inverse_transform L G (mk_frame s F) = (mk_frame s F, Raise shape_error).
Proof.
  intros Hu Hi Ho Hd. unfold inverse_transform.
  erewrite bind_attr by (cbn; exact Hu). cbv beta iota.
  unfold bind at 1. now rewrite (shapes_differ_true _ _ _ _ _ Hi Ho Hd).
Qed.

Lemma np_dot_ok a b o :
  ncols a = nrows b -> shape o = (nrows a, ncols b) -> np_dot a b o = Ok (matmul a b).
Proof.
  intros H1 H2. unfold np_dot. rewrite H1, Nat.eqb_refl.
  apply shape_eqb_eq in H2. now rewrite H2.
Qed.

Lemma np_dot_raises a b o :
  ncols a <> nrows b \/ shape o <> (nrows a, ncols b) -> exists e, np_dot a b o = Raise e.
Proof.
  intros H. unfold np_dot. destruct (Nat.eqb_spec (ncols a) (nrows b)) as [E|E].
  - destruct H as [H|H]; [contradiction|]. apply shape_eqb_neq in H. rewrite H. eauto.
  - eauto.
Qed.

(** C8, as amended.  On a GPU object, [transform] and
    [inverse_transform] raise the shape error, and leave the output
    array and the object as they were, whenever the input or the output
    array has a shape other than [(Nz, Nr)].  On a CPU object nothing is
    compared with [Nz]: the call is [np.dot], which raises and leaves
    the output array untouched exactly when the input has not [Nr]
    columns or the output has not the input's shape, and otherwise
    overwrites the output with the matrix product, whatever the number
    of rows. *)
Theorem shape_check_by_path L s Nz Nr X Y :
  configured s Nz Nr ->
  (self_use_cuda s = Some true ->
     shape X <> (Nz, Nr) \/ shape Y <> (Nz, Nr) ->
     transform L X (mk_frame s Y) = (mk_frame s Y, Raise shape_error)
     /\ inverse_transform L X (mk_frame s Y) = (mk_frame s Y, Raise shape_error))
  /\ (self_use_cuda s = Some false ->
      (ncols X <> Nr \/ shape Y <> (nrows X, Nr) ->
         (exists e, transform L X (mk_frame s Y) = (mk_frame s Y, Raise e))
         /\ (exists e, inverse_transform L X (mk_frame s Y) = (mk_frame s Y, Raise e)))
      /\ (ncols X = Nr -> shape Y = (nrows X, Nr) ->
            exists M invM,
              self_M s = Some M /\ self_invM s = Some invM
              /\ transform L X (mk_frame s Y) = (mk_frame s (matmul X M), Ok tt)
              /\ inverse_transform L X (mk_frame s Y)
                 = (mk_frame s (matmul X invM), Ok tt))).
Proof.
  intros ([M [HM HsM]] & [invM [HiM HsiM]] & Hdev).
  injection HsM as HM1 HM2. injection HsiM as HI1 HI2.
  split.
  - intros Hu Hd. rewrite Hu in Hdev.
    destruct Hdev as ([d_in [Hi Hsi]] & [d_out [Ho Hso]]).
    split; [eapply transform_gpu_mismatch | eapply inverse_transform_gpu_mismatch];
      eauto; rewrite Hsi, Hso; exact Hd.
  - intros Hu. split.
    + intros Hd. rewrite (transform_cpu L s X Y M Hu HM).
      rewrite (inverse_transform_cpu L s X Y invM Hu HiM).
      destruct (np_dot_raises X M Y) as [e ->]; [rewrite HM1, HM2; exact Hd|].
      destruct (np_dot_raises X invM Y) as [e' ->]; [rewrite HI1, HI2; exact Hd|].
      eauto.
    + intros Hc Hs. exists M, invM. split; [exact HM|]. split; [exact HiM|].
      rewrite (transform_cpu L s X Y M Hu HM).
      rewrite (inverse_transform_cpu L s X Y invM Hu HiM).
      rewrite !np_dot_ok by (rewrite ?HM1, ?HM2, ?HI1, ?HI2; assumption). auto.
Qed.

Lemma cpu_object_configured : configured cpu_object 1 1.
Proof.
  split; [exists unit_matrix; split; reflexivity|].
  split; [exists unit_matrix; split; reflexivity|]. exact I.
Defined.

(** C8, refuted as stated.  A CPU object configured for
    [(Nz, Nr) = (1, 1)] takes an [F] of shape [(2, 1)]: [transform]
    returns normally and has overwritten [G]. *)
Lemma other_batch_size_accepted :
  configured cpu_object 1 1
  /\ ~ shape_enforced stand_in cpu_object 1 1 zeros_2x1 ones_2x1.
Proof.
  split; [exact cpu_object_configured|].
  unfold shape_enforced. intros H.
  destruct H as [e He]; [cbn; intros [=]|].
  rewrite (transform_cpu stand_in cpu_object _ _ unit_matrix eq_refl eq_refl) in He.
  cbn in He. discriminate.
Qed.


Lemma keeps_ret {A} (a : A) : keeps (ret a).
Proof. intros w w' res [= <- _]. auto. Qed.

Lemma keeps_raise {A} e : keeps (@raise world A e).
Proof. intros w w' res [= <- _]. auto. Qed.

Lemma keeps_call {A} (c : result A) : keeps (call c).
Proof. intros w w' res [= <- _]. auto. Qed.

Lemma keeps_getattr {A} name (get : DHT -> option A) : keeps (getattr name get).
Proof.
  intros w w' res. unfold getattr. destruct (get (self w)); intros [= <- _]; auto.
Qed.

Lemma keeps_setattr upd :
  (forall s, self_use_cuda (upd s) = self_use_cuda s) -> keeps (setattr upd).
Proof. intros H w w' res [= <- _]. cbn. auto. Qed.

Lemma keeps_bind {A B} (c : py A) (k : A -> py B) :
  keeps c -> (forall a, keeps (k a)) -> keeps (bind c k).
Proof.
  intros Hc Hk w w' res. unfold bind.
  destruct (c w) as [w1 [a|e]] eqn:E; destruct (Hc _ _ _ E) as [H1 H2].
  - intros H. destruct (Hk a _ _ _ H) as [H3 H4]. split; congruence.
  - intros [= <- _]. auto.
Qed.

Ltac keeps_tac :=
  repeat first
    [ apply keeps_ret | apply keeps_raise | apply keeps_call
    | apply keeps_getattr
    | apply keeps_setattr; intros; reflexivity
    | apply keeps_bind; [|intros]
    | match goal with |- keeps (if ?b then _ else _) => destruct b end ].

Lemma keeps_after_gpu L size p m Nr rmax :
  keeps
    ((check_mode p m ;; register_args p m Nr rmax ;;
      alphas <- call (bessel_zeros L m Nr) ;;
      nu <- call (spectral_grid rmax alphas) ;; setattr (set_nu nu) ;;
      r <- call (spatial_grid rmax Nr) ;; setattr (set_r r) ;;
      calc_invM L p m Nr rmax alphas) ;;
     n <- call size ;;
     a <- call (np_empty L 1 n n) ;;
     setattr (set_M a) ;;
     fill_M L p m ;;
     copy_to_gpu L).
Proof.
  unfold check_mode, register_args, calc_invM, fill_M, copy_to_gpu. keeps_tac.
Qed.

Lemma init_sized_unfold L size p m Nr Nz rmax use_cuda w0 :
  DHT_init_sized L size p m Nr Nz rmax use_cuda w0
  = bind (register_gpu L use_cuda Nz Nr)
      (fun _ =>
       (check_mode p m ;; register_args p m Nr rmax ;;
        alphas <- call (bessel_zeros L m Nr) ;;
        nu <- call (spectral_grid rmax alphas) ;; setattr (set_nu nu) ;;
        r <- call (spatial_grid rmax Nr) ;; setattr (set_r r) ;;
        calc_invM L p m Nr rmax alphas) ;;
       n <- call size ;;
       a <- call (np_empty L 1 n n) ;;
       setattr (set_M a) ;;
       fill_M L p m ;;
       copy_to_gpu L) w0.
Proof.
  unfold DHT_init_sized, init_grids_and_invM. unfold bind.
  destruct (register_gpu L use_cuda Nz Nr w0) as [w1 [[]|e]]; reflexivity.
Qed.

Lemma fallback_runs L Nz Nr :
  cuda_installed L = false ->
  register_gpu L true Nz Nr new_world
  = (mk_world (set_use_cuda false new_DHT) device_warning, Ok tt).
Proof. intros H. unfold register_gpu. cbn. rewrite H. reflexivity. Qed.



Lemma km_ret {A} (a : A) : keeps_mode (ret a).
Proof. intros w w' res [= <- _]. auto. Qed.
Lemma km_raise {A} e : keeps_mode (@raise frame A e).
Proof. intros w w' res [= <- _]. auto. Qed.
Lemma km_call {A} (c : result A) : keeps_mode (call c).
Proof. intros w w' res [= <- _]. auto. Qed.
Lemma km_attr {A} name (get : DHT -> option A) : keeps_mode (attr name get).
Proof. intros w w' res. unfold attr. destruct (get (this w)); intros [= <- _]; auto. Qed.
Lemma km_read_out : keeps_mode read_out.
Proof. intros w w' res [= <- _]. auto. Qed.
Lemma km_write_out a : keeps_mode (write_out a).
Proof. intros w w' res [= <- _]. auto. Qed.
Lemma km_set_this upd :
  (forall s, self_use_cuda (upd s) = self_use_cuda s) -> keeps_mode (set_this upd).
Proof. intros H w w' res [= <- _]. cbn. auto. Qed.
Lemma km_bind {A B} (c : stmt frame A) (k : A -> stmt frame B) :
  keeps_mode c -> (forall a, keeps_mode (k a)) -> keeps_mode (bind c k).
Proof.
  intros Hc Hk w w' res. unfold bind.
  destruct (c w) as [w1 [a|e]] eqn:E; pose proof (Hc _ _ _ E) as H1.
  - intros H. pose proof (Hk a _ _ _ H). congruence.
  - intros [= <- _]. auto.
Qed.

Ltac km_tac :=
  repeat first
    [ apply km_ret | apply km_raise | apply km_call | apply km_attr
    | apply km_read_out | apply km_write_out
    | apply km_set_this; intros; reflexivity
    | apply km_bind; [|intros]
    | match goal with |- keeps_mode (if ?b then _ else _) => destruct b end ].

Lemma transform_keeps_mode L F : keeps_mode (transform L F).
Proof. unfold transform, shapes_differ. km_tac. Qed.

Lemma inverse_transform_keeps_mode L G : keeps_mode (inverse_transform L G).
Proof. unfold inverse_transform, shapes_differ. km_tac. Qed.

Lemma transform_cpu_any_lib L L' s F G :
  self_use_cuda s = Some false ->
  transform L F (mk_frame s G) = transform L' F (mk_frame s G)
  /\ inverse_transform L F (mk_frame s G) = inverse_transform L' F (mk_frame s G).
Proof.
  intros H.
  split; [unfold transform | unfold inverse_transform];
    rewrite !(bind_attr "use_cuda" self_use_cuda false) by exact H; reflexivity.
Qed.

(** What a completed [fill_M] has stored. *)
Lemma fill_M_inv L p m s o invM M0 w :
  self_invM s = Some invM -> self_M s = Some M0 ->
  fill_M L p m (mk_world s o) = (w, Ok tt) ->
  exists M,
    w = mk_world (set_M M s) o
    /\ (m <> 0%Z /\ p <> (m - 1)%Z ->
          shape M = shape M0 /\ forall i, item M i 0 = 0)
    /\ (m = 0%Z \/ p = (m - 1)%Z -> linalg_inv L invM = Ok M).
Proof.
  intros Hi HM. unfold fill_M.
  destruct (Z.eqb_spec m 0) as [Hm|Hm], (Z.eqb_spec p (m - 1)) as [Hp|Hp];
    cbn [negb andb].
  4:{ step.
      destruct (linalg_pinv L (rows_from_1 invM)) as [P|e];
        [erewrite bind_call_ok by reflexivity
        |erewrite bind_call_raise by reflexivity; discriminate].
      step.
      destruct (setitem_block M0 0 1 P) as [M1|e] eqn:E1;
        [erewrite bind_call_ok by reflexivity
        |erewrite bind_call_raise by reflexivity; discriminate].
      do 2 step.
      destruct (fill_col M1 0 0) as [M2|e] eqn:E2;
        [erewrite bind_call_ok by reflexivity
        |erewrite bind_call_raise by reflexivity; discriminate].
      intros [= <-]. exists M2. split; [reflexivity|]. split; [|intros [?|?]; contradiction].
      intros _. unfold fill_col in E2. destruct (0 <? ncols M1)%nat; [|discriminate].
      injection E2 as <-. unfold setitem_block in E1.
      destruct (bcast_ok _ _ && bcast_ok _ _); [|discriminate].
      injection E1 as <-. split; reflexivity. }
  all: step;
    destruct (linalg_inv L invM) as [M|e];
      [erewrite bind_call_ok by reflexivity
      |erewrite bind_call_raise by reflexivity; discriminate];
    intros [= <-]; exists M; split; [reflexivity|];
    split; [intros [? ?]; try contradiction | reflexivity].
Qed.

Lemma fill_M_pinv_runs L p m s o invM M0 P :
  m <> 0%Z -> p <> (m - 1)%Z ->
  self_invM s = Some invM -> self_M s = Some M0 ->
  linalg_pinv L (rows_from_1 invM) = Ok P ->
  shape P = (nrows M0, (ncols M0 - 1)%nat) -> (0 < ncols M0)%nat ->
  exists M, fill_M L p m (mk_world s o) = (mk_world (set_M M s) o, Ok tt).
Proof.
  intros Hm Hp Hi HM HP Hs Hc. injection Hs as Hs1 Hs2. unfold fill_M.
  destruct (Z.eqb_spec m 0); [contradiction|].
  destruct (Z.eqb_spec p (m - 1)); [contradiction|]. cbn [negb andb].
  step. erewrite bind_call_ok by exact HP. step.
  erewrite bind_call_ok.
  2:{ unfold setitem_block, bcast_ok. rewrite Hs1, Hs2, Nat.sub_0_r, !Nat.eqb_refl.
      reflexivity. }
  do 2 step. erewrite bind_call_ok.
  2:{ unfold fill_col. cbn [ncols].
      replace (0 <? ncols M0)%nat with true by (symmetry; apply Nat.ltb_lt; lia).
      reflexivity. }
  eexists. reflexivity.
Qed.

(* ---------------- sums ---------------- *)

Lemma Rsum_ext f g n :
  (forall k, (k < n)%nat -> f k = g k) -> Rsum f n = Rsum g n.
Proof.
  induction n as [|n IH]; intros H; cbn; [reflexivity|].
  rewrite IH by (intros; apply H; lia). rewrite H by lia. reflexivity.
Qed.


Lemma Rsum_plus f g n : Rsum (fun k => f k + g k) n = Rsum f n + Rsum g n.
Proof. induction n as [|n IH]; cbn; [ring | rewrite IH; ring]. Qed.

Lemma Rsum_minus f g n : Rsum (fun k => f k - g k) n = Rsum f n - Rsum g n.
Proof. induction n as [|n IH]; cbn; [ring | rewrite IH; ring]. Qed.

Lemma Rsum_scal_l c f n : Rsum (fun k => c * f k) n = c * Rsum f n.
Proof. induction n as [|n IH]; cbn; [ring | rewrite IH; ring]. Qed.



Lemma Csum_fst f n : fst (Csum f n) = Rsum (fun k => fst (f k)) n.
Proof. induction n as [|n IH]; cbn; [reflexivity | now rewrite IH]. Qed.

Lemma Csum_snd f n : snd (Csum f n) = Rsum (fun k => snd (f k)) n.
Proof. induction n as [|n IH]; cbn; [reflexivity | now rewrite IH]. Qed.

Lemma Cmul_RtoC_fst x y : fst (Cmul x (RtoC y)) = fst x * y.
Proof. cbn. ring. Qed.

Lemma Cmul_RtoC_snd x y : snd (Cmul x (RtoC y)) = snd x * y.
Proof. cbn. ring. Qed.

Lemma C_eq (a b : C) : fst a = fst b -> snd a = snd b -> a = b.
Proof. destruct a, b. cbn. now intros -> ->. Qed.

Lemma valid_init_raises L p m Nr Nz rmax use_cuda :
  scipy_contract L -> valid_construction L p m Nr Nz rmax use_cuda ->
  exists w, DHT_init L p m Nr Nz rmax use_cuda new_world
            = (w, Raise (NameError "N")).
Proof.
  intros HL Hv.
  destruct (valid_runs L p m Nr Nz rmax use_cuda HL Hv)
    as (alphas & s1 & invM & _ & _ & Hrun & _).
  apply init_stops_at_N in Hrun. eauto.
Qed.

(** C10.  The code when the GPU is requested and CUDA is missing: lines
    53-69 complete, set [use_cuda] to [False] and print the two warning
    lines; nothing later prints or assigns [use_cuda]; [transform] and
    [inverse_transform] on an object with [use_cuda = False] do not
    depend on the library state and never assign [use_cuda].  But the
    construction still raises (for a valid one, [NameError] at line
    118). *)
Theorem gpu_fallback L p m Nr Nz rmax :
  cuda_installed L = false ->
  register_gpu L true Nz Nr new_world
  = (mk_world (set_use_cuda false new_DHT) device_warning, Ok tt)
  /\ (exists w e,
        DHT_init L p m Nr Nz rmax true new_world = (w, Raise e)
        /\ construct L p m Nr Nz rmax true = Raise e
        /\ stdout w = device_warning
        /\ self_use_cuda (self w) = Some false
        /\ (scipy_contract L -> valid_construction L p m Nr Nz rmax true ->
            e = NameError "N"))
  /\ (forall s X Y L',
        self_use_cuda s = Some false ->
        transform L X (mk_frame s Y) = transform L' X (mk_frame s Y)
        /\ inverse_transform L X (mk_frame s Y)
           = inverse_transform L' X (mk_frame s Y))
  /\ (forall X fr fr' res,
        transform L X fr = (fr', res) \/ inverse_transform L X fr = (fr', res) ->
        self_use_cuda (this fr') = self_use_cuda (this fr)).
Proof.
  intros Hc. pose proof (fallback_runs L Nz Nr Hc) as Hgpu.
  split; [exact Hgpu|]. split; [|split].
  - destruct (init_never_returns L p m Nr Nz rmax true new_world) as (w & e & Hrun).
    exists w, e. split; [exact Hrun|].
    split; [unfold construct; now rewrite Hrun|].
    pose proof Hrun as Hrun'. unfold DHT_init in Hrun'.
    rewrite init_sized_unfold in Hrun'. unfold bind at 1 in Hrun'.
    rewrite Hgpu in Hrun'.
    destruct (keeps_after_gpu L (size_N L) p m Nr rmax _ _ _ Hrun') as [Ho Hu].
    split; [exact Ho|]. split; [exact Hu|].
    intros HL Hv.
    destruct (valid_init_raises L p m Nr Nz rmax true HL Hv)
      as (w' & Hrun2). rewrite Hrun in Hrun2. now injection Hrun2.
  - intros s X Y L' Hs. now apply transform_cpu_any_lib.
  - intros X fr fr' res [H|H].
    + exact (transform_keeps_mode L X _ _ _ H).
    + exact (inverse_transform_keeps_mode L X _ _ _ H).
Qed.

Lemma stand_in_valid_gpu_request : valid_construction stand_in 0 0 4 1 1 true.
Proof.
  split; [reflexivity|]. split; [lia|]. split; [lra|].
  split; [eexists; reflexivity | intros _ [=]].
Defined.

(** C10 at [p=0, m=0, Nr=4, Nz=1, rmax=1] with the stand-in libraries. *)
Lemma gpu_fallback_witness :
  register_gpu stand_in true 1 4 new_world
  = (mk_world (set_use_cuda false new_DHT) device_warning, Ok tt)
  /\ (exists w e,
        DHT_init stand_in 0 0 4 1 1 true new_world = (w, Raise e)
        /\ construct stand_in 0 0 4 1 1 true = Raise e
        /\ stdout w = device_warning
        /\ self_use_cuda (self w) = Some false
        /\ (scipy_contract stand_in ->
            valid_construction stand_in 0 0 4 1 1 true ->
            e = NameError "N"))
  /\ (forall s X Y L',
        self_use_cuda s = Some false ->
        transform stand_in X (mk_frame s Y) = transform L' X (mk_frame s Y)
        /\ inverse_transform stand_in X (mk_frame s Y)
           = inverse_transform L' X (mk_frame s Y))
  /\ (forall X fr fr' res,
        transform stand_in X fr = (fr', res)
        \/ inverse_transform stand_in X fr = (fr', res) ->
        self_use_cuda (this fr') = self_use_cuda (this fr)).
Proof. apply (gpu_fallback stand_in 0 0 4 1 1). reflexivity. Defined.


Lemma stand_in_valid_1_1_2 : valid_construction stand_in 1 1 2 1 1 false.
Proof.
  split; [reflexivity|]. split; [lia|]. split; [lra|].
  split; [eexists; reflexivity | intros [=]].
Defined.



(** C5 at [p=0, m=2]. *)
Lemma invalid_mode_raises_witness :
  exists w e,
    DHT_init stand_in 0 2 4 1 1 false new_world = (w, Raise e)
    /\ construct stand_in 0 2 4 1 1 false = Raise e
    /\ no_grid (self w)
    /\ (gpu_ready stand_in false 1 4 -> e = invalid_mode).
Proof.
  apply (invalid_mode_raises stand_in 0 2 4 1 1 false); lia.
Defined.

(** C8 at the CPU object [cpu_object]. *)
Lemma shape_check_by_path_witness :
  (self_use_cuda cpu_object = Some true ->
     shape zeros_2x1 <> (1, 1)%nat \/ shape ones_2x1 <> (1, 1)%nat ->
     transform stand_in zeros_2x1 (mk_frame cpu_object ones_2x1)
     = (mk_frame cpu_object ones_2x1, Raise shape_error)
     /\ inverse_transform stand_in zeros_2x1 (mk_frame cpu_object ones_2x1)
        = (mk_frame cpu_object ones_2x1, Raise shape_error))
  /\ (self_use_cuda cpu_object = Some false ->
      (ncols zeros_2x1 <> 1%nat \/ shape ones_2x1 <> (nrows zeros_2x1, 1%nat) ->
         (exists e, transform stand_in zeros_2x1 (mk_frame cpu_object ones_2x1)
                    = (mk_frame cpu_object ones_2x1, Raise e))
         /\ (exists e, inverse_transform stand_in zeros_2x1 (mk_frame cpu_object ones_2x1)
                       = (mk_frame cpu_object ones_2x1, Raise e)))
      /\ (ncols zeros_2x1 = 1%nat -> shape ones_2x1 = (nrows zeros_2x1, 1%nat) ->
            exists M invM,
              self_M cpu_object = Some M /\ self_invM cpu_object = Some invM
              /\ transform stand_in zeros_2x1 (mk_frame cpu_object ones_2x1)
                 = (mk_frame cpu_object (matmul zeros_2x1 M), Ok tt)
              /\ inverse_transform stand_in zeros_2x1 (mk_frame cpu_object ones_2x1)
                 = (mk_frame cpu_object (matmul zeros_2x1 invM), Ok tt))).
Proof.
  apply (shape_check_by_path stand_in cpu_object 1 1 zeros_2x1 ones_2x1
           cpu_object_configured).
Defined.

(* ---------------- C3: other exceptions come first ---------------- *)

Lemma spectral_grid_zero alphas :
  spectral_grid 0 alphas = Raise (ZeroDivisionError "float division by zero").
Proof.
  unfold spectral_grid, py_div.
  destruct (Req_dec_T (2 * PI * 0) 0) as [_|H]; [reflexivity|].
  exfalso. apply H. ring.
Qed.




(* ---------------- C1: linear systems ---------------- *)






(* ---------------- C1: the round trip ---------------- *)







(* ---------------- C9: the GPU branch ---------------- *)

Lemma Csum_ext f g n :
  (forall k, (k < n)%nat -> f k = g k) -> Csum f n = Csum g n.
Proof.
  induction n as [|n IH]; intros H; cbn; [reflexivity|].
  rewrite IH by (intros; apply H; lia). rewrite H by lia. reflexivity.
Qed.

Lemma gemm_scalars (x d : C) : Cadd (Cmul (RtoC 1) x) (Cmul (RtoC 0) d) = x.
Proof. apply C_eq; cbn; ring. Qed.

(** What the three GPU steps leave in the output array: the kernel
    copies the input into [d_in], [gemm] multiplies it by the device
    matrix into [d_out], the kernel copies [d_out] out. *)
Lemma gpu_steps_are_matmul X Y d_in d_out d_B (B : ndarray R) Nz Nr :
  shape X = (Nz, Nr) -> shape Y = (Nz, Nr) ->
  shape d_in = (Nz, Nr) -> shape d_out = (Nz, Nr) ->
  shape B = (Nr, Nr) -> same_array d_B (astype_complex B) ->
  same_array
    (cuda_copy_2d_to_2d
       (gemm (nrows X) (ncols X) (ncols X) (RtoC 1)
             (cuda_copy_2d_to_2d X d_in) d_B (RtoC 0) d_out)
       Y)
    (matmul X B).
Proof.
  intros HX HY Hi Ho HB [HsB HdB].
  injection HX as HX1 HX2. injection HY as HY1 HY2.
  injection Hi as Hi1 Hi2. injection Ho as Ho1 Ho2. injection HB as HB1 HB2.
  injection HsB as HsB1 HsB2. cbn [astype_complex nrows ncols] in HsB1, HsB2.
  split; [unfold shape; cbn [cuda_copy_2d_to_2d matmul nrows ncols]; congruence|].
  intros i j Hlt_i Hlt_j. cbn [cuda_copy_2d_to_2d nrows ncols] in Hlt_i, Hlt_j.
  cbn [cuda_copy_2d_to_2d gemm matmul item nrows ncols].
  assert (Ei : forall a b, (a < b)%nat -> Nat.ltb a b = true)
    by (intros a b H; apply Nat.ltb_lt; exact H).
  rewrite !Ei by lia. cbn [andb]. rewrite gemm_scalars. unfold Cdot.
  apply Csum_ext. intros k Hk. rewrite Ei by lia.
  rewrite (HdB k j) by lia. reflexivity.
Qed.

Lemma global_copy_kernel L :
  cuda_installed L = true ->
  load_global L "cuda_copy_2d_to_2d"
  = Ok (PyFunction "cuda_methods.cuda_copy_2d_to_2d").
Proof. intros H. unfold load_global, module_globals. rewrite H. reflexivity. Qed.

Lemma shapes_differ_false X s G d_in d_out :
  self_d_in s = Some d_in -> self_d_out s = Some d_out ->
  shape X = shape d_in -> shape G = shape d_out ->
  shapes_differ X (mk_frame s G) = (mk_frame s G, Ok false).
Proof.
  intros Hi Ho H1 H2. unfold shapes_differ.
  erewrite bind_attr by (cbn; exact Hi).
  apply shape_eqb_eq in H1. rewrite H1. cbn [negb].
  unfold bind at 1, read_out. cbn [out].
  erewrite bind_attr by (cbn; exact Ho).
  apply shape_eqb_eq in H2. now rewrite H2.
Qed.

(** The GPU branch of [transform], run. *)
Lemma transform_gpu L s X Y d_in d_out d_M b g bl :
  cuda_installed L = true ->
  self_use_cuda s = Some true -> self_blas s = Some b ->
  self_dim_grid s = Some g -> self_dim_block s = Some bl ->
  self_d_in s = Some d_in -> self_d_out s = Some d_out ->
  self_d_M s = Some d_M ->
  shape X = shape d_in -> shape Y = shape d_out ->
  exists s',
    transform L X (mk_frame s Y)
    = (mk_frame s'
         (cuda_copy_2d_to_2d
            (gemm (nrows X) (ncols X) (ncols X) (RtoC 1)
                  (cuda_copy_2d_to_2d X d_in) d_M (RtoC 0) d_out) Y),
       Ok tt).
Proof.
  intros Hc Hu Hb Hg Hbl Hi Ho HM H1 H2. unfold transform.
  erewrite bind_attr by (cbn; exact Hu). cbv beta iota.
  unfold bind at 1. rewrite (shapes_differ_false X s Y d_in d_out Hi Ho H1 H2).
  cbv beta iota.
  erewrite bind_call_ok by (apply global_copy_kernel; assumption).
  erewrite bind_attr by (cbn; exact Hg).
  erewrite bind_attr by (cbn; exact Hbl).
  erewrite bind_attr by (cbn; exact Hi).
  unfold bind at 1, set_this. cbn [this out].
  erewrite bind_attr by (cbn; exact Hb).
  erewrite bind_attr by (cbn; reflexivity).
  erewrite bind_attr by (cbn; exact HM).
  erewrite bind_attr by (cbn; exact Ho).
  unfold bind at 1. cbn [this out].
  erewrite bind_call_ok by (apply global_copy_kernel; assumption).
  erewrite bind_attr by (cbn; exact Hg).
  erewrite bind_attr by (cbn; exact Hbl).
  erewrite bind_attr by (cbn; reflexivity).
  unfold bind, read_out, write_out. cbn [this out].
  eexists. reflexivity.
Qed.

(** The GPU branch of [inverse_transform], run. *)
Lemma inverse_transform_gpu L s X Y d_in d_out d_invM b g bl :
  cuda_installed L = true ->
  self_use_cuda s = Some true -> self_blas s = Some b ->
  self_dim_grid s = Some g -> self_dim_block s = Some bl ->
  self_d_in s = Some d_in -> self_d_out s = Some d_out ->
  self_d_invM s = Some d_invM ->
  shape X = shape d_in -> shape Y = shape d_out ->
  exists s',
    inverse_transform L X (mk_frame s Y)
    = (mk_frame s'
         (cuda_copy_2d_to_2d
            (gemm (nrows X) (ncols X) (ncols X) (RtoC 1)
                  (cuda_copy_2d_to_2d X d_in) d_invM (RtoC 0) d_out) Y),
       Ok tt).
Proof.
  intros Hc Hu Hb Hg Hbl Hi Ho HM H1 H2. unfold inverse_transform.
  erewrite bind_attr by (cbn; exact Hu). cbv beta iota.
  unfold bind at 1. rewrite (shapes_differ_false X s Y d_in d_out Hi Ho H1 H2).
  cbv beta iota.
  erewrite bind_call_ok by (apply global_copy_kernel; assumption).
  erewrite bind_attr by (cbn; exact Hg).
  erewrite bind_attr by (cbn; exact Hbl).
  erewrite bind_attr by (cbn; exact Hi).
  unfold bind at 1, set_this. cbn [this out].
  erewrite bind_attr by (cbn; exact Hb).
  erewrite bind_attr by (cbn; reflexivity).
  erewrite bind_attr by (cbn; exact HM).
  erewrite bind_attr by (cbn; exact Ho).
  unfold bind at 1. cbn [this out].
  erewrite bind_call_ok by (apply global_copy_kernel; assumption).
  erewrite bind_attr by (cbn; exact Hg).
  erewrite bind_attr by (cbn; exact Hbl).
  erewrite bind_attr by (cbn; reflexivity).
  unfold bind, read_out, write_out. cbn [this out].
  eexists. reflexivity.
Qed.

(** C9.  On a GPU object for [(Nz, Nr)], for every input and output
    array of that shape, the GPU branch of [transform] completes and
    leaves in the output array the values that the CPU branch, run on
    the same object with [use_cuda = False], writes there: the matrix
    product [np.dot(F, M)].  The same holds of [inverse_transform] with
    [invM].  Floats are real numbers here, so the two results are equal
    item by item. *)
Theorem gpu_path_equals_cpu_path L s Nz Nr M invM X Y :
  cuda_installed L = true -> gpu_object s Nz Nr M invM ->
  shape X = (Nz, Nr) -> shape Y = (Nz, Nr) ->
  (exists fr_gpu,
      transform L X (mk_frame s Y) = (fr_gpu, Ok tt)
      /\ transform L X (mk_frame (set_use_cuda false s) Y)
         = (mk_frame (set_use_cuda false s) (matmul X M), Ok tt)
      /\ same_array (out fr_gpu) (matmul X M))
  /\ (exists fr_gpu,
        inverse_transform L X (mk_frame s Y) = (fr_gpu, Ok tt)
        /\ inverse_transform L X (mk_frame (set_use_cuda false s) Y)
           = (mk_frame (set_use_cuda false s) (matmul X invM), Ok tt)
        /\ same_array (out fr_gpu) (matmul X invM)).
Proof.
  intros Hc (Hu & [b Hb] & [g Hg] & [bl Hbl] & [d_in [Hi Hsi]] & [d_out [Ho Hso]]
             & HM & HsM & HiM & HsiM & [d_M [HdM HsdM]] & [d_invM [HdiM HsdiM]])
         HX HY.
  pose proof HX as HX'. injection HX' as HX1 HX2.
  pose proof HsM as HsM'. injection HsM' as HM1 HM2.
  pose proof HsiM as HsiM'. injection HsiM' as HiM1 HiM2.
  split.
  - destruct (transform_gpu L s X Y d_in d_out d_M b g bl) as [s' Hrun];
      try assumption; try congruence.
    eexists. split; [exact Hrun|]. split.
    + rewrite (transform_cpu L _ X Y M) by (cbn; auto).
      rewrite np_dot_ok; [reflexivity | congruence | rewrite HY; f_equal; congruence].
    + cbn [out]. eapply gpu_steps_are_matmul; eassumption.
  - destruct (inverse_transform_gpu L s X Y d_in d_out d_invM b g bl) as [s' Hrun];
      try assumption; try congruence.
    eexists. split; [exact Hrun|]. split.
    + rewrite (inverse_transform_cpu L _ X Y invM) by (cbn; auto).
      rewrite np_dot_ok; [reflexivity | congruence | rewrite HY; f_equal; congruence].
    + cbn [out]. eapply gpu_steps_are_matmul; eassumption.
Qed.

Lemma gpu_object_2x1_configured :
  gpu_object gpu_object_2x1 2 1 unit_matrix unit_matrix.
Proof.
  unfold gpu_object, gpu_object_2x1. cbn.
  repeat split; eauto.
  all: eexists; split; [reflexivity|]; split; [reflexivity|]; intros; reflexivity.
Defined.

(** C9 at the GPU object [gpu_object_2x1]. *)
Lemma gpu_path_equals_cpu_path_witness :
  (exists fr_gpu,
      transform stand_in_gpu ones_2x1 (mk_frame gpu_object_2x1 zeros_2x1)
      = (fr_gpu, Ok tt)
      /\ transform stand_in_gpu ones_2x1
           (mk_frame (set_use_cuda false gpu_object_2x1) zeros_2x1)
         = (mk_frame (set_use_cuda false gpu_object_2x1)
                     (matmul ones_2x1 unit_matrix), Ok tt)
      /\ same_array (out fr_gpu) (matmul ones_2x1 unit_matrix))
  /\ (exists fr_gpu,
        inverse_transform stand_in_gpu ones_2x1 (mk_frame gpu_object_2x1 zeros_2x1)
        = (fr_gpu, Ok tt)
        /\ inverse_transform stand_in_gpu ones_2x1
             (mk_frame (set_use_cuda false gpu_object_2x1) zeros_2x1)
           = (mk_frame (set_use_cuda false gpu_object_2x1)
                       (matmul ones_2x1 unit_matrix), Ok tt)
        /\ same_array (out fr_gpu) (matmul ones_2x1 unit_matrix)).
Proof.
  apply (gpu_path_equals_cpu_path stand_in_gpu gpu_object_2x1 2 1
           unit_matrix unit_matrix ones_2x1 zeros_2x1
           eq_refl gpu_object_2x1_configured eq_refl eq_refl).
Defined.

(* ================================================================= *)
(** * Further properties of the code *)

(* ---------------- X1: rmax = 0 ---------------- *)

(** X1.  With [rmax = 0], an accepted mode and the zeros delivered, the
    constructor raises [ZeroDivisionError] at line 90
    ([1./(2*np.pi*rmax)]): [rmax] has been registered, and no grid and
    no matrix has been stored. *)
Theorem zero_rmax_raises L p m Nr Nz use_cuda alphas :
  mode_ok p m = true -> bessel_zeros L m Nr = Ok alphas ->
  gpu_ready L use_cuda Nz Nr ->
  exists w,
    DHT_init L p m Nr Nz 0 use_cuda new_world
    = (w, Raise (ZeroDivisionError "float division by zero"))
    /\ self_rmax (self w) = Some 0
    /\ self_nu (self w) = None /\ self_r (self w) = None
    /\ self_invM (self w) = None /\ self_M (self w) = None.
Proof.
  intros Hmode Hz Hgpu.
  destruct (register_gpu_runs L use_cuda Nz Nr Hgpu) as (s1 & Hrun & Hng & _).
  destruct Hng as (_ & _ & _ & _ & Hnu & Hr & Hi & HM).
  eexists. split.
  - apply init_stops_early. rewrite prefix_unfold. unfold bind at 1. rewrite Hrun.
    unfold check_mode, register_args. rewrite Hmode. cbn [Bool.eqb].
    repeat step. erewrite bind_call_ok by exact Hz.
    erewrite bind_call_raise by apply spectral_grid_zero. reflexivity.
  - cbn. auto.
Qed.

Lemma stand_in_cpu_ready Nz Nr : gpu_ready stand_in false Nz Nr.
Proof. intros [=]. Defined.

Lemma zero_rmax_raises_witness :
  exists w,
    DHT_init stand_in 0 0 4 1 0 false new_world
    = (w, Raise (ZeroDivisionError "float division by zero"))
    /\ self_rmax (self w) = Some 0
    /\ self_nu (self w) = None /\ self_r (self w) = None
    /\ self_invM (self w) = None /\ self_M (self w) = None.
Proof.
  apply (zero_rmax_raises stand_in 0 0 4 1 false _ eq_refl eq_refl
           (stand_in_cpu_ready 1 4)).
Defined.

(* ---------------- X2: Nr <= 0 ---------------- *)

Lemma arange_nonpositive n : (n <= 0)%Z -> arange n = [].
Proof. intros H. unfold arange. replace (Z.to_nat n) with 0%nat by lia. reflexivity. Qed.

(** Lines 83-87 ask [jn_zeros] for [Nr] or [Nr - 1] zeros. *)
Lemma bessel_zeros_refused L m Nr e0 :
  (forall n nt, (nt <= 0)%Z -> jn_zeros L n nt = Raise e0) -> (Nr <= 0)%Z ->
  bessel_zeros L m Nr = Raise e0.
Proof.
  intros H HNr. unfold bessel_zeros.
  destruct (negb (m =? 0)%Z); rewrite H by lia; reflexivity.
Qed.

(** X2.  With [Nr <= 0] every construction raises before any matrix is
    allocated: neither [invM] nor [M] is assigned and [r] is absent or
    empty.  With a [jn_zeros] that refuses a count [nt <= 0], as SciPy's
    does, an accepted mode and the GPU set-up through, the exception is
    that refusal, raised at line 85 or 87, and neither grid is stored. *)
Theorem nonpositive_Nr_raises L p m Nr Nz rmax use_cuda :
  (Nr <= 0)%Z ->
  exists w e,
    DHT_init L p m Nr Nz rmax use_cuda new_world = (w, Raise e)
    /\ construct L p m Nr Nz rmax use_cuda = Raise e
    /\ (self_r (self w) = None \/ self_r (self w) = Some [])
    /\ self_invM (self w) = None /\ self_M (self w) = None
    /\ (forall e0,
          (forall n nt, (nt <= 0)%Z -> jn_zeros L n nt = Raise e0) ->
          gpu_ready L use_cuda Nz Nr -> mode_ok p m = true ->
          e = e0 /\ self_nu (self w) = None /\ self_r (self w) = None).
Proof.
  intros HNr.
  assert (Hpre : exists w e,
    init_grids_and_invM L p m Nr Nz rmax use_cuda new_world = (w, Raise e)
    /\ (self_r (self w) = None \/ self_r (self w) = Some [])
    /\ self_invM (self w) = None /\ self_M (self w) = None
    /\ (forall e0,
          (forall n nt, (nt <= 0)%Z -> jn_zeros L n nt = Raise e0) ->
          gpu_ready L use_cuda Nz Nr -> mode_ok p m = true ->
          e = e0 /\ self_nu (self w) = None /\ self_r (self w) = None)).
  { rewrite prefix_unfold. unfold bind at 1.
    destruct (register_gpu L use_cuda Nz Nr new_world) as [w1 res1] eqn:Hgpu.
    destruct (register_gpu_no_grid _ _ _ _ _ _ Hgpu) as (Hng & _ & _).
    destruct Hng as (_ & _ & _ & _ & Hnu & Hr & Hi & HM).
    destruct res1 as [[]|e1].
    2:{ exists w1, e1. split; [reflexivity|]. repeat split; auto.
        all: destruct (register_gpu_runs L use_cuda Nz Nr H0) as (s1 & Hrun & _);
          rewrite Hrun in Hgpu; discriminate. }
    destruct w1 as [s1 o1]. cbn [self] in *.
    unfold check_mode, register_args.
    destruct (mode_ok p m) eqn:Hmode; cbn [Bool.eqb].
    2:{ rewrite bind_raise. do 2 eexists. split; [reflexivity|].
        cbn [self]. repeat split; auto; discriminate. }
    repeat step.
    destruct (bessel_zeros L m Nr) as [alphas|e] eqn:Hz.
    2:{ erewrite bind_call_raise by reflexivity. do 2 eexists.
        split; [reflexivity|]. cbn. repeat split; auto.
        rewrite (bessel_zeros_refused L m Nr e0) in Hz by assumption.
        now injection Hz. }
    assert (Hno : forall e0,
              (forall n nt, (nt <= 0)%Z -> jn_zeros L n nt = Raise e0) -> False).
    { intros e0 H0. rewrite (bessel_zeros_refused L m Nr e0 H0 HNr) in Hz.
      discriminate. }
    erewrite bind_call_ok by reflexivity.
    unfold spectral_grid, spatial_grid, py_div.
    destruct (Req_dec_T (2 * PI * rmax) 0) as [H0|H0].
    { erewrite bind_call_raise by reflexivity. do 2 eexists.
      split; [reflexivity|]. cbn. repeat split; auto.
      all: exfalso; eapply Hno; eassumption. }
    erewrite bind_call_ok by reflexivity. step.
    destruct (Req_dec_T (IZR Nr) 0) as [H1|H1].
    { erewrite bind_call_raise by reflexivity. do 2 eexists.
      split; [reflexivity|]. cbn. repeat split; auto.
      all: exfalso; eapply Hno; eassumption. }
    erewrite bind_call_ok by reflexivity. step.
    assert (Hlt : (Nr < 0)%Z).
    { destruct (Z.eq_dec Nr 0) as [->|]; [exfalso; apply H1; reflexivity | lia]. }
    unfold calc_invM, np_empty.
    replace (Nr <? 0)%Z with true by (symmetry; apply Z.ltb_lt; exact Hlt).
    cbn [orb]. erewrite bind_call_raise by reflexivity. do 2 eexists.
    split; [reflexivity|]. cbn [self]. unfold set_r, set_nu; cbn.
    rewrite arange_nonpositive by lia. repeat split; auto.
    all: exfalso; eapply Hno; eassumption. }
  destruct Hpre as (w & e & Hrun & H).
  apply init_stops_early in Hrun.
  exists w, e. split; [exact Hrun|]. split; [|exact H].
  unfold construct. now rewrite Hrun.
Qed.

Lemma stand_in_refuses n nt :
  (nt <= 0)%Z -> jn_zeros stand_in n nt = Raise (ValueError "nt > 0").
Proof.
  intros H. cbn. unfold asymptotic_jn_zeros.
  destruct (Z.leb_spec nt 0); [reflexivity | lia].
Defined.

(** X2 at [Nr = 0] with the stand-in libraries, whose [jn_zeros] refuses
    as SciPy's does: [ValueError] from line 87. *)
Lemma nonpositive_Nr_raises_witness :
  exists w,
    DHT_init stand_in 0 0 0 1 1 false new_world = (w, Raise (ValueError "nt > 0"))
    /\ construct stand_in 0 0 0 1 1 false = Raise (ValueError "nt > 0")
    /\ self_nu (self w) = None /\ self_r (self w) = None
    /\ self_invM (self w) = None /\ self_M (self w) = None.
Proof.
  destruct (nonpositive_Nr_raises stand_in 0 0 0 1 1 false ltac:(lia))
    as (w & e & H1 & H2 & _ & H4 & H5 & H6).
  destruct (H6 (ValueError "nt > 0") stand_in_refuses (stand_in_cpu_ready 1 0) eq_refl)
    as (He & Hnu & Hr).
  subst e. exists w. auto 10.
Defined.

(* ---------------- X3: the radial grid ---------------- *)

Lemma r_of_nth rmax Nr i :
  (i < Z.to_nat Nr)%nat ->
  nth i (r_of rmax Nr) 0 = rmax * 1 / IZR Nr * (INR i + 0.5).
Proof.
  intros Hi. unfold r_of, arange. rewrite map_map.
  rewrite (nth_map_in _ _ _ 0%nat) by (now rewrite length_seq).
  rewrite seq_nth by assumption. reflexivity.
Qed.

(** X3.  For every valid construction the radial grid is the uniform
    grid with a half-cell offset, [r[i] = (i + 1/2) rmax / Nr]: every
    point lies strictly between 0 and [rmax], and neighbours are
    [rmax / Nr] apart. *)
Theorem radial_grid_inside_box L p m Nr Nz rmax use_cuda :
  scipy_contract L -> valid_construction L p m Nr Nz rmax use_cuda ->
  exists w r,
    init_grids_and_invM L p m Nr Nz rmax use_cuda new_world = (w, Ok tt)
    /\ get_r (self w) = Ok r
    /\ forall i, (i < Z.to_nat Nr)%nat ->
         nth i r 0 = (INR i + 1 / 2) * (rmax / IZR Nr)
         /\ 0 < nth i r 0 < rmax
         /\ ((S i < Z.to_nat Nr)%nat -> nth (S i) r 0 - nth i r 0 = rmax / IZR Nr).
Proof.
  intros HL Hv.
  destruct (valid_runs L p m Nr Nz rmax use_cuda HL Hv)
    as (alphas & s1 & invM & _ & _ & Hrun & _).
  destruct Hv as (_ & HNr & Hrmax & _).
  eexists _, (r_of rmax Nr). split; [exact Hrun|]. split; [reflexivity|].
  intros i Hi. rewrite r_of_nth by assumption.
  assert (HN : 0 < IZR Nr) by (apply IZR_lt; lia).
  assert (Hh : 0 < rmax / IZR Nr) by (apply Rdiv_lt_0_compat; lra).
  assert (Hi0 : 0 <= INR i) by apply pos_INR.
  assert (Hi1 : INR i + 1 <= IZR Nr).
  { rewrite <- S_INR, INR_IZR_INZ. apply IZR_le. lia. }
  split; [unfold Rdiv; lra|]. split; [split|].
  - replace (rmax * 1 / IZR Nr * (INR i + 0.5))
      with ((INR i + 0.5) * (rmax / IZR Nr)) by (unfold Rdiv; ring).
    apply Rmult_lt_0_compat; lra.
  - replace (rmax * 1 / IZR Nr * (INR i + 0.5))
      with ((INR i + 0.5) * (rmax / IZR Nr)) by (unfold Rdiv; ring).
    replace rmax with (IZR Nr * (rmax / IZR Nr)) at 2 by (field; lra).
    apply Rmult_lt_compat_r; lra.
  - intros HS. rewrite r_of_nth by assumption. rewrite S_INR. unfold Rdiv. ring.
Qed.

Lemma radial_grid_inside_box_witness :
  exists w r,
    init_grids_and_invM stand_in 0 0 4 1 1 false new_world = (w, Ok tt)
    /\ get_r (self w) = Ok r
    /\ forall i, (i < Z.to_nat 4)%nat ->
         nth i r 0 = (INR i + 1 / 2) * (1 / IZR 4)
         /\ 0 < nth i r 0 < 1
         /\ ((S i < Z.to_nat 4)%nat -> nth (S i) r 0 - nth i r 0 = 1 / IZR 4).
Proof.
  apply (radial_grid_inside_box stand_in 0 0 4 1 1 false
           stand_in_contract stand_in_valid_0_0_4).
Defined.

(* ---------------- X4: no uninitialised item in invM ---------------- *)

(** X4.  No item of [invM] is left as [np.empty] found it: for every
    valid construction, the [invM] stored does not depend on what the
    allocated memory held. *)
Theorem invM_fully_assigned L u p m Nr Nz rmax use_cuda :
  scipy_contract L -> valid_construction L p m Nr Nz rmax use_cuda ->
  exists w w' invM invM',
    init_grids_and_invM L p m Nr Nz rmax use_cuda new_world = (w, Ok tt)
    /\ init_grids_and_invM (with_memory L u) p m Nr Nz rmax use_cuda new_world
       = (w', Ok tt)
    /\ self_invM (self w) = Some invM /\ self_invM (self w') = Some invM'
    /\ same_array invM invM'.
Proof.
  intros HL Hv.
  assert (HL' : scipy_contract (with_memory L u)) by exact HL.
  assert (Hv' : valid_construction (with_memory L u) p m Nr Nz rmax use_cuda)
    by exact Hv.
  destruct (valid_runs L p m Nr Nz rmax use_cuda HL Hv)
    as (alphas & s1 & invM & Hz & _ & Hrun & _ & _ & Hsh & Hit).
  destruct (valid_runs _ p m Nr Nz rmax use_cuda HL' Hv')
    as (alphas' & s1' & invM' & Hz' & _ & Hrun' & _ & _ & Hsh' & Hit').
  change (bessel_zeros (with_memory L u) m Nr) with (bessel_zeros L m Nr) in Hz'.
  rewrite Hz in Hz'. injection Hz' as <-.
  eexists _, _, invM, invM'. split; [exact Hrun|]. split; [exact Hrun'|].
  split; [reflexivity|]. split; [reflexivity|].
  split; [congruence|]. intros i j Hi Hj.
  injection Hsh as E1 E2. injection Hsh' as E1' E2'.
  assert (Hi' : (i < nrows invM')%nat) by (rewrite E1', <- E1; exact Hi).
  assert (Hj' : (j < ncols invM')%nat) by (rewrite E2', <- E2; exact Hj).
  destruct (Hit i j Hi Hj) as (A1 & A2 & A3).
  destruct (Hit' i j Hi' Hj') as (B1 & B2 & B3).
  destruct (Z.eq_dec m 0) as [Hm|Hm].
  - rewrite A1, B1 by auto. reflexivity.
  - destruct i as [|i].
    + destruct (Z.eq_dec p (m - 1)) as [Hp|Hp].
      * rewrite A2, B2 by auto. reflexivity.
      * rewrite A3, B3 by auto. reflexivity.
    + rewrite A1, B1 by (right; lia). reflexivity.
Qed.

Lemma invM_fully_assigned_witness :
  exists w w' invM invM',
    init_grids_and_invM stand_in 1 1 2 1 1 false new_world = (w, Ok tt)
    /\ init_grids_and_invM (with_memory stand_in (fun _ _ _ => 1)) 1 1 2 1 1
         false new_world = (w', Ok tt)
    /\ self_invM (self w) = Some invM /\ self_invM (self w') = Some invM'
    /\ same_array invM invM'.
Proof.
  apply (invM_fully_assigned stand_in (fun _ _ _ => 1) 1 1 2 1 1 false
           stand_in_contract stand_in_valid_1_1_2).
Defined.

(* ---------------- X6: the GPU set-up comes before the mode check ------ *)

(** X6.  The GPU set-up comes before the mode check: when the GPU is
    requested, CUDA is there and the set-up goes through, a construction
    with an invalid mode raises the mode error with the cuBLAS handle,
    both device buffers and the launch configuration already stored on
    the object, and none of the grid attributes. *)
Theorem gpu_setup_precedes_mode_check L p m Nr Nz rmax :
  cuda_installed L = true -> gpu_ready L true Nz Nr -> mode_ok p m = false ->
  exists w b z d gb,
    DHT_init L p m Nr Nz rmax true new_world = (w, Raise invalid_mode)
    /\ np_zeros Nz Nr = Ok z /\ cuda_to_device L z = Ok d
    /\ self_use_cuda (self w) = Some true
    /\ self_blas (self w) = Some b
    /\ self_d_in (self w) = Some d /\ self_d_out (self w) = Some d
    /\ self_dim_grid (self w) = Some (fst gb)
    /\ self_dim_block (self w) = Some (snd gb)
    /\ no_grid (self w).
Proof.
  intros Hc Hg Hmode.
  destruct (Hg eq_refl Hc) as [[b Hb] [[z [d [Hz Hd]]] [gb Hgb]]].
  exists (mk_world
            (set_dim_block (snd gb) (set_dim_grid (fst gb)
               (set_d_out d (set_d_in d (set_blas b (set_use_cuda true new_DHT))))))
            []), b, z, d, gb.
  split.
  - apply init_stops_early. rewrite prefix_unfold. unfold bind at 1.
    assert (Hrun : register_gpu L true Nz Nr new_world
                   = (mk_world
                        (set_dim_block (snd gb) (set_dim_grid (fst gb)
                           (set_d_out d (set_d_in d (set_blas b
                              (set_use_cuda true new_DHT))))))
                        [], Ok tt)).
    { unfold register_gpu, new_world. rewrite Hc. cbn [Bool.eqb andb negb].
      repeat (step; cbn [Bool.eqb andb negb]).
      erewrite bind_call_ok by (unfold load_global, module_globals; rewrite Hc; reflexivity).
      erewrite bind_call_ok by eassumption. step.
      erewrite bind_call_ok by eassumption.
      erewrite bind_call_ok by (unfold load_global, module_globals; rewrite Hc; reflexivity).
      erewrite bind_call_ok by eassumption. step.
      erewrite bind_call_ok by eassumption. step.
      erewrite bind_call_ok by (unfold load_global, module_globals; rewrite Hc; reflexivity).
      erewrite bind_call_ok by eassumption. step. reflexivity. }
    rewrite Hrun. unfold check_mode. rewrite Hmode. cbn [Bool.eqb].
    now rewrite bind_raise.
  - cbn. unfold no_grid. cbn. auto 20.
Qed.

Lemma stand_in_gpu_ready : gpu_ready stand_in_gpu true 1 4.
Proof.
  intros _ _. split; [eexists; reflexivity|].
  split; [do 2 eexists; split; reflexivity | eexists; reflexivity].
Defined.

Lemma gpu_setup_precedes_mode_check_witness :
  exists w b z d gb,
    DHT_init stand_in_gpu 0 2 4 1 1 true new_world = (w, Raise invalid_mode)
    /\ np_zeros 1 4 = Ok z /\ cuda_to_device stand_in_gpu z = Ok d
    /\ self_use_cuda (self w) = Some true
    /\ self_blas (self w) = Some b
    /\ self_d_in (self w) = Some d /\ self_d_out (self w) = Some d
    /\ self_dim_grid (self w) = Some (fst gb)
    /\ self_dim_block (self w) = Some (snd gb)
    /\ no_grid (self w).
Proof.
  apply (gpu_setup_precedes_mode_check stand_in_gpu 0 2 4 1 1 eq_refl
           stand_in_gpu_ready eq_refl).
Defined.

(* ---------------- X5: what transform leaves alone ---------------- *)

Lemma same_but_buffers_refl s : same_but_buffers s s.
Proof. unfold same_but_buffers. auto 20. Qed.

Lemma same_but_buffers_trans s1 s2 s3 :
  same_but_buffers s1 s2 -> same_but_buffers s2 s3 -> same_but_buffers s1 s3.
Proof.
  unfold same_but_buffers. intros H1 H2.
  repeat match goal with H : _ /\ _ |- _ => destruct H end.
  repeat split; congruence.
Qed.

Lemma ka_ret {A} (a : A) : keeps_attrs (ret a).
Proof. intros w w' res [= <- _]. apply same_but_buffers_refl. Qed.
Lemma ka_raise {A} e : keeps_attrs (@raise frame A e).
Proof. intros w w' res [= <- _]. apply same_but_buffers_refl. Qed.
Lemma ka_call {A} (c : result A) : keeps_attrs (call c).
Proof. intros w w' res [= <- _]. apply same_but_buffers_refl. Qed.
Lemma ka_attr {A} name (get : DHT -> option A) : keeps_attrs (attr name get).
Proof.
  intros w w' res. unfold attr.
  destruct (get (this w)); intros [= <- _]; apply same_but_buffers_refl.
Qed.
Lemma ka_read_out : keeps_attrs read_out.
Proof. intros w w' res [= <- _]. apply same_but_buffers_refl. Qed.
Lemma ka_write_out a : keeps_attrs (write_out a).
Proof. intros w w' res [= <- _]. apply same_but_buffers_refl. Qed.
Lemma ka_set_d_in a : keeps_attrs (set_this (set_d_in a)).
Proof. intros w w' res [= <- _]. cbn. unfold same_but_buffers. cbn. auto 20. Qed.
Lemma ka_set_d_out a : keeps_attrs (set_this (set_d_out a)).
Proof. intros w w' res [= <- _]. cbn. unfold same_but_buffers. cbn. auto 20. Qed.
Lemma ka_bind {A B} (c : stmt frame A) (k : A -> stmt frame B) :
  keeps_attrs c -> (forall a, keeps_attrs (k a)) -> keeps_attrs (bind c k).
Proof.
  intros Hc Hk w w' res. unfold bind.
  destruct (c w) as [w1 [a|e]] eqn:E; pose proof (Hc _ _ _ E) as H1.
  - intros H. eapply same_but_buffers_trans; [exact H1|]. exact (Hk a _ _ _ H).
  - intros [= <- _]. exact H1.
Qed.

Ltac ka_tac :=
  repeat first
    [ apply ka_ret | apply ka_raise | apply ka_call | apply ka_attr
    | apply ka_read_out | apply ka_write_out
    | apply ka_set_d_in | apply ka_set_d_out
    | apply ka_bind; [|intros]
    | match goal with |- keeps_attrs (if ?b then _ else _) => destruct b end ].

Lemma transform_keeps_attrs L X : keeps_attrs (transform L X).
Proof. unfold transform, shapes_differ. ka_tac. Qed.

Lemma inverse_transform_keeps_attrs L X : keeps_attrs (inverse_transform L X).
Proof. unfold inverse_transform, shapes_differ. ka_tac. Qed.

Lemma transform_cpu_frame L X s Y fr res :
  self_use_cuda s = Some false ->
  transform L X (mk_frame s Y) = (fr, res) ->
  this fr = s /\ (res <> Ok tt -> out fr = Y).
Proof.
  intros Hu. unfold transform. erewrite bind_attr by exact Hu. cbv beta iota.
  unfold bind, attr, read_out, call, write_out. cbn [this out].
  destruct (self_M s) as [n|]; cbv beta iota; cbn [this out];
    [|intros [= <- <-]; cbn; auto].
  destruct (np_dot X n Y); cbv beta iota; intros [= <- <-]; cbn; split; auto.
  intros H; now contradiction H.
Qed.

Lemma inverse_transform_cpu_frame L X s Y fr res :
  self_use_cuda s = Some false ->
  inverse_transform L X (mk_frame s Y) = (fr, res) ->
  this fr = s /\ (res <> Ok tt -> out fr = Y).
Proof.
  intros Hu. unfold inverse_transform. erewrite bind_attr by exact Hu. cbv beta iota.
  unfold bind, attr, read_out, call, write_out. cbn [this out].
  destruct (self_invM s) as [n|]; cbv beta iota; cbn [this out];
    [|intros [= <- <-]; cbn; auto].
  destruct (np_dot X n Y); cbv beta iota; intros [= <- <-]; cbn; split; auto.
  intros H; now contradiction H.
Qed.

(** X5.  [transform] and [inverse_transform], however they end, assign
    no attribute of the object other than the device buffers [d_in] and
    [d_out]; on a CPU object they leave the object as it was, and the
    output array too when they raise. *)
Theorem transform_frame L X s Y fr res :
  transform L X (mk_frame s Y) = (fr, res)
  \/ inverse_transform L X (mk_frame s Y) = (fr, res) ->
  same_but_buffers s (this fr)
  /\ (self_use_cuda s = Some false ->
      this fr = s /\ (res <> Ok tt -> out fr = Y)).
Proof.
  intros [H|H].
  - split; [exact (transform_keeps_attrs L X _ _ _ H)|].
    intros Hu. exact (transform_cpu_frame L X s Y fr res Hu H).
  - split; [exact (inverse_transform_keeps_attrs L X _ _ _ H)|].
    intros Hu. exact (inverse_transform_cpu_frame L X s Y fr res Hu H).
Qed.

Lemma transform_frame_witness :
  let run := transform stand_in zeros_2x1 (mk_frame cpu_object ones_2x1) in
  same_but_buffers cpu_object (this (fst run))
  /\ (self_use_cuda cpu_object = Some false ->
      this (fst run) = cpu_object
      /\ (snd run <> Ok tt -> out (fst run) = ones_2x1)).
Proof.
  apply (transform_frame stand_in zeros_2x1 cpu_object ones_2x1).
  left. apply surjective_pairing.
Defined.

(* ---------------- X7: linearity on the CPU ---------------- *)

Lemma Cadd_fst a b : fst (Cadd a b) = fst a + fst b. Proof. reflexivity. Qed.
Lemma Cadd_snd a b : snd (Cadd a b) = snd a + snd b. Proof. reflexivity. Qed.

Lemma matmul_add X1 X2 M :
  shape X2 = shape X1 ->
  same_array (matmul (array_add X1 X2) M) (array_add (matmul X1 M) (matmul X2 M)).
Proof.
  intros Hs. injection Hs as Hr Hc. split; [reflexivity|].
  intros i j _ _. cbn [matmul array_add item nrows ncols]. rewrite Hc.
  apply C_eq.
  - rewrite Cadd_fst, !Csum_fst, <- Rsum_plus. apply Rsum_ext. intros k _.
    rewrite !Cmul_RtoC_fst, Cadd_fst. ring.
  - rewrite Cadd_snd, !Csum_snd, <- Rsum_plus. apply Rsum_ext. intros k _.
    rewrite !Cmul_RtoC_snd, Cadd_snd. ring.
Qed.

Lemma Cmul_fst a b : fst (Cmul a b) = fst a * fst b - snd a * snd b.
Proof. reflexivity. Qed.
Lemma Cmul_snd a b : snd (Cmul a b) = fst a * snd b + snd a * fst b.
Proof. reflexivity. Qed.

Lemma matmul_scale c X M :
  same_array (matmul (array_scale c X) M) (array_scale c (matmul X M)).
Proof.
  split; [reflexivity|].
  intros i j _ _. cbn [matmul array_scale item nrows ncols].
  apply C_eq.
  - rewrite Csum_fst, (Cmul_fst c (Csum _ _)).
    rewrite Csum_fst, Csum_snd, <- !Rsum_scal_l, <- Rsum_minus.
    apply Rsum_ext. intros k _. cbn. ring.
  - rewrite Csum_snd, (Cmul_snd c (Csum _ _)).
    rewrite Csum_fst, Csum_snd, <- !Rsum_scal_l, <- Rsum_plus.
    apply Rsum_ext. intros k _. cbn. ring.
Qed.

(** X7.  On a CPU object, [transform] is linear: for inputs with [Nr]
    columns it completes, the transform of a sum is the sum of the
    transforms, and the transform of [c * F] is [c] times the transform
    of [F], item by item. *)
Theorem transform_linear L s Nz Nr X1 X2 c Y :
  configured s Nz Nr -> self_use_cuda s = Some false ->
  ncols X1 = Nr -> shape X2 = shape X1 -> shape Y = shape X1 ->
  exists G1 G2 G12 Gc,
    transform L X1 (mk_frame s Y) = (mk_frame s G1, Ok tt)
    /\ transform L X2 (mk_frame s Y) = (mk_frame s G2, Ok tt)
    /\ transform L (array_add X1 X2) (mk_frame s Y) = (mk_frame s G12, Ok tt)
    /\ transform L (array_scale c X1) (mk_frame s Y) = (mk_frame s Gc, Ok tt)
    /\ same_array G12 (array_add G1 G2)
    /\ same_array Gc (array_scale c G1).
Proof.
  intros ([M [HM HsM]] & _ & _) Hu Hc Hs2 HsY.
  injection HsM as HM1 HM2. pose proof Hs2 as Hs2'. injection Hs2' as Hr2 Hc2.
  exists (matmul X1 M), (matmul X2 M), (matmul (array_add X1 X2) M),
         (matmul (array_scale c X1) M).
  rewrite !(transform_cpu L s _ Y M Hu HM).
  rewrite !np_dot_ok;
    try (cbn [array_add array_scale nrows ncols]; congruence);
    try (rewrite HsY; unfold shape; cbn [array_add array_scale nrows ncols];
         congruence).
  do 4 (split; [reflexivity|]).
  split; [apply matmul_add; assumption | apply matmul_scale].
Qed.

Lemma transform_linear_witness :
  exists G1 G2 G12 Gc,
    transform stand_in zeros_2x1 (mk_frame cpu_object ones_2x1)
    = (mk_frame cpu_object G1, Ok tt)
    /\ transform stand_in ones_2x1 (mk_frame cpu_object ones_2x1)
       = (mk_frame cpu_object G2, Ok tt)
    /\ transform stand_in (array_add zeros_2x1 ones_2x1)
         (mk_frame cpu_object ones_2x1) = (mk_frame cpu_object G12, Ok tt)
    /\ transform stand_in (array_scale (RtoC 2) zeros_2x1)
         (mk_frame cpu_object ones_2x1) = (mk_frame cpu_object Gc, Ok tt)
    /\ same_array G12 (array_add G1 G2)
    /\ same_array Gc (array_scale (RtoC 2) G1).
Proof.
  apply (transform_linear stand_in cpu_object 1 1 zeros_2x1 ones_2x1 (RtoC 2)
           ones_2x1 cpu_object_configured); reflexivity.
Defined.

(* ---------------- X8: what the constructor prints ---------------- *)

Lemma register_gpu_mode L use_cuda Nz Nr w res :
  register_gpu L use_cuda Nz Nr new_world = (w, res) ->
  self_use_cuda (self w) = Some (use_cuda && cuda_installed L).
Proof.
  unfold register_gpu.
  destruct use_cuda, (cuda_installed L) eqn:Hc; cbn [Bool.eqb andb negb];
    unfold new_world; repeat (step; cbn [Bool.eqb andb negb]).
  2-4: intros [= <- _]; reflexivity.
  unfold load_global, module_globals. rewrite Hc. cbn -[np_zeros].
  unfold bind, call, setattr.
  destruct (cublas_Blas L); [|intros [= <- _]; reflexivity].
  destruct (np_zeros Nz Nr); [|intros [= <- _]; reflexivity].
  destruct (cuda_to_device L a0); [|intros [= <- _]; reflexivity].
  destruct (cuda_tpb_bpg_2d L Nz Nr); intros [= <- _]; reflexivity.
Qed.

Lemma init_keeps_output L p m Nr Nz rmax use_cuda w res :
  DHT_init L p m Nr Nz rmax use_cuda new_world = (w, res) ->
  stdout w = warning_of L use_cuda
  /\ self_use_cuda (self w) = Some (use_cuda && cuda_installed L).
Proof.
  unfold DHT_init. rewrite init_sized_unfold. unfold bind at 1.
  destruct (register_gpu L use_cuda Nz Nr new_world) as [w1 res1] eqn:Hgpu.
  destruct (register_gpu_no_grid _ _ _ _ _ _ Hgpu) as (_ & Ho & _).
  pose proof (register_gpu_mode _ _ _ _ _ _ Hgpu) as Hm.
  destruct res1 as [[]|e]; [|intros [= <- _]; auto].
  intros Hrest.
  destruct (keeps_after_gpu L (size_N L) p m Nr rmax _ _ _ Hrest) as [H1 H2].
  split; congruence.
Qed.

(** X8.  Whatever the arguments and however the constructor ends, it
    has printed the two warning lines when the GPU was requested without
    CUDA and nothing otherwise, and [self.use_cuda] holds
    [use_cuda and cuda_installed]. *)
Theorem constructor_output L p m Nr Nz rmax use_cuda :
  let w := fst (DHT_init L p m Nr Nz rmax use_cuda new_world) in
  stdout w = warning_of L use_cuda
  /\ self_use_cuda (self w) = Some (use_cuda && cuda_installed L).
Proof.
  cbv zeta. apply (init_keeps_output L p m Nr Nz rmax use_cuda _
                     (snd (DHT_init L p m Nr Nz rmax use_cuda new_world))).
  apply surjective_pairing.
Qed.

(* ---------------- dens_func ---------------- *)

Lemma np_where_map {A} (c : A -> bool) (a b : A -> R) (z : list A) :
  np_where (map c z) (map a z) (map b z)
  = map (fun x => if c x then a x else b x) z.
Proof. induction z as [|x z IH]; cbn; [reflexivity | now rewrite IH]. Qed.

Lemma np_and_map {A} (c d : A -> bool) (z : list A) :
  np_and (map c z) (map d z) = map (fun x => c x && d x) z.
Proof.
  unfold np_and. induction z as [|x z IH]; cbn; [reflexivity | now rewrite IH].
Qed.

Lemma combine_map_map {A B} (f : A -> R) (g : B -> R) (z : list A) (r : list B) :
  map (fun ab => fst ab * snd ab) (combine (map f z) (map g r))
  = map (fun zr => f (fst zr) * g (snd zr)) (combine z r).
Proof.
  revert r. induction z as [|x z IH]; intros [|y r]; cbn; try reflexivity.
  now rewrite IH.
Qed.

Lemma ramp_profile_pointwise ru pl rd x :
  0 < ru -> 0 <= pl -> 0 < rd ->
  (if (if Rge_dec x (ru + pl) then true else false)
      && (if Rlt_dec x (ru + pl + rd) then true else false)
   then - (x - (ru + pl + rd)) * (1 / rd)
   else if (if Rlt_dec x ru then true else false) then x * (1 / ru) else 1)
  = ramp_profile ru pl rd x.
Proof.
  intros Hu Hp Hd. unfold ramp_profile.
  destruct (Rge_dec x (ru + pl)), (Rlt_dec x (ru + pl + rd)), (Rlt_dec x ru),
    (Rlt_dec x (ru + pl)); cbn [andb]; try lra; unfold Rdiv; try ring.
Qed.

Lemma dens_func_eq ru pl rd rel z r :
  0 < ru -> 0 <= pl -> 0 < rd -> List.length r = List.length z ->
  dens_func ru pl rd rel z r
  = Ok (map (fun zr => ramp_profile ru pl rd (fst zr) * (1 + rel * snd zr ^ 2))
            (combine z r)).
Proof.
  intros Hu Hp Hd Hlen. unfold dens_func, py_div.
  destruct (Req_dec_T ru 0); [lra|]. destruct (Req_dec_T rd 0); [lra|].
  cbn [rbind]. unfold np_less, np_greater_equal.
  rewrite (np_where_map _ (fun zi => zi * (1 / ru)) (fun _ => 1)).
  rewrite np_and_map.
  rewrite (np_where_map _ (fun zi => - (zi - (ru + pl + rd)) * (1 / rd))).
  unfold np_multiply. rewrite !length_map, Hlen, Nat.eqb_refl.
  rewrite combine_map_map. f_equal. apply map_ext. intros [x y]. cbn [fst snd].
  f_equal. now apply ramp_profile_pointwise.
Qed.

Lemma dens_func_items ru pl rd rel z r :
  0 < ru -> 0 <= pl -> 0 < rd -> List.length r = List.length z ->
  exists n,
    dens_func ru pl rd rel z r = Ok n
    /\ List.length n = List.length z
    /\ forall i, (i < List.length z)%nat ->
         nth i n 0
         = ramp_profile ru pl rd (nth i z 0) * (1 + rel * nth i r 0 ^ 2).
Proof.
  intros Hu Hp Hd Hlen. eexists. split; [now apply dens_func_eq|].
  split; [rewrite length_map, length_combine, Hlen; apply Nat.min_id|].
  intros i Hi.
  rewrite (nth_map_in _ _ _ (0, 0))
    by (rewrite length_combine, Hlen, Nat.min_id; exact Hi).
  rewrite combine_nth by (symmetry; exact Hlen). reflexivity.
Qed.

(** X9.  [dens_func] with positive ramps and a non-negative plateau, on
    arrays [z] and [r] of one length: it returns an array of that
    length whose item [i] is the longitudinal profile at [z[i]] times
    [1 + rel_delta_n_over_w2 * r[i]^2], the profile being [z/ramp_up]
    before [ramp_up], 1 on the plateau, the linear descent to 0 on the
    down ramp, and 1 again from the end of the down ramp on. *)
Theorem dens_func_profile ru pl rd rel z r :
  0 < ru -> 0 <= pl -> 0 < rd -> List.length r = List.length z ->
  exists n,
    dens_func ru pl rd rel z r = Ok n
    /\ List.length n = List.length z
    /\ forall i, (i < List.length z)%nat ->
         let zi := nth i z 0 in
         let ri := nth i r 0 in
         nth i n 0 = ramp_profile ru pl rd zi * (1 + rel * ri ^ 2)
         /\ (zi < ru -> nth i n 0 = zi / ru * (1 + rel * ri ^ 2))
         /\ (ru <= zi < ru + pl -> nth i n 0 = 1 + rel * ri ^ 2)
         /\ (ru + pl <= zi < ru + pl + rd ->
               nth i n 0 = (ru + pl + rd - zi) / rd * (1 + rel * ri ^ 2))
         /\ (ru + pl + rd <= zi -> nth i n 0 = 1 + rel * ri ^ 2).
Proof.
  intros Hu Hp Hd Hlen.
  destruct (dens_func_items ru pl rd rel z r Hu Hp Hd Hlen) as (n & Hn & Hl & Hi).
  exists n. split; [exact Hn|]. split; [exact Hl|].
  intros i Hlt zi ri. rewrite (Hi i Hlt). fold zi ri.
  split; [reflexivity|]. unfold ramp_profile.
  repeat split; intros Hz;
    destruct (Rlt_dec zi ru), (Rlt_dec zi (ru + pl)), (Rlt_dec zi (ru + pl + rd));
    try lra; ring.
Qed.

Lemma dens_func_profile_witness :
  exists n,
    dens_func 1 2 1 0 [0.5; 1; 3.5; 4] [0; 0; 0; 0] = Ok n
    /\ List.length n = 4%nat
    /\ forall i, (i < 4)%nat ->
         let zi := nth i [0.5; 1; 3.5; 4] 0 in
         let ri := nth i [0; 0; 0; 0] 0 in
         nth i n 0 = ramp_profile 1 2 1 zi * (1 + 0 * ri ^ 2)
         /\ (zi < 1 -> nth i n 0 = zi / 1 * (1 + 0 * ri ^ 2))
         /\ (1 <= zi < 1 + 2 -> nth i n 0 = 1 + 0 * ri ^ 2)
         /\ (1 + 2 <= zi < 1 + 2 + 1 ->
               nth i n 0 = (1 + 2 + 1 - zi) / 1 * (1 + 0 * ri ^ 2))
         /\ (1 + 2 + 1 <= zi -> nth i n 0 = 1 + 0 * ri ^ 2).
Proof.
  apply (dens_func_profile 1 2 1 0 [0.5; 1; 3.5; 4] [0; 0; 0; 0]);
    [lra | lra | lra | reflexivity].
Defined.

Lemma ramp_profile_bounds ru pl rd x :
  0 < ru -> 0 <= pl -> 0 < rd ->
  (0 <= x -> 0 <= ramp_profile ru pl rd x <= 1)
  /\ (x < 0 -> ramp_profile ru pl rd x < 0).
Proof.
  intros Hu Hp Hd. unfold ramp_profile.
  destruct (Rlt_dec x ru), (Rlt_dec x (ru + pl)), (Rlt_dec x (ru + pl + rd));
    split; intros Hx; try lra.
  all: try (split; [apply Rmult_le_pos; [lra | left; now apply Rinv_0_lt_compat]
                   | apply Rmult_le_reg_r with ru; [lra|]; unfold Rdiv;
                     rewrite Rmult_assoc, Rinv_l by lra; lra]).
  all: try (unfold Rdiv;
            replace (x * / ru) with (- ((- x) * / ru)) by ring;
            apply Ropp_lt_gt_0_contravar; apply Rmult_gt_0_compat;
            [lra | now apply Rinv_0_lt_compat]).
  all: try (split; [apply Rmult_le_pos; [lra | left; now apply Rinv_0_lt_compat]
                   | apply Rmult_le_reg_r with rd; [lra|]; unfold Rdiv;
                     rewrite Rmult_assoc, Rinv_l by lra; lra]).
Qed.

(** X10.  [dens_func] with positive ramps, a non-negative plateau and a
    non-negative guiding coefficient: for [z[i] >= 0] the relative
    density lies between 0 and [1 + rel_delta_n_over_w2 * r[i]^2] (so
    between 0 and 1 on the axis), and for [z[i] < 0] it is negative. *)
Theorem dens_func_bounds ru pl rd rel z r :
  0 < ru -> 0 <= pl -> 0 < rd -> 0 <= rel -> List.length r = List.length z ->
  exists n,
    dens_func ru pl rd rel z r = Ok n
    /\ forall i, (i < List.length z)%nat ->
         (0 <= nth i z 0 -> 0 <= nth i n 0 <= 1 + rel * nth i r 0 ^ 2)
         /\ (nth i z 0 < 0 -> nth i n 0 < 0)
         /\ (nth i r 0 = 0 -> 0 <= nth i z 0 -> 0 <= nth i n 0 <= 1).
Proof.
  intros Hu Hp Hd Hrel Hlen.
  destruct (dens_func_items ru pl rd rel z r Hu Hp Hd Hlen) as (n & Hn & _ & Hi).
  exists n. split; [exact Hn|]. intros i Hlt. rewrite (Hi i Hlt).
  destruct (ramp_profile_bounds ru pl rd (nth i z 0) Hu Hp Hd) as [B1 B2].
  assert (Hg : 1 <= 1 + rel * nth i r 0 ^ 2).
  { assert (0 <= nth i r 0 ^ 2) by (apply pow2_ge_0). 
    assert (0 <= rel * nth i r 0 ^ 2) by (apply Rmult_le_pos; assumption). lra. }
  split; [|split].
  - intros Hz. destruct (B1 Hz). split; [apply Rmult_le_pos; lra|].
    rewrite <- (Rmult_1_l (1 + rel * nth i r 0 ^ 2)) at 2.
    apply Rmult_le_compat_r; lra.
  - intros Hz. specialize (B2 Hz).
    replace (ramp_profile ru pl rd (nth i z 0) * (1 + rel * nth i r 0 ^ 2))
      with (- ((- ramp_profile ru pl rd (nth i z 0)) * (1 + rel * nth i r 0 ^ 2)))
      by ring.
    apply Ropp_lt_gt_0_contravar. apply Rmult_gt_0_compat; lra.
  - intros Hr Hz. rewrite Hr. destruct (B1 Hz).
    replace (1 + rel * 0 ^ 2) with 1 by ring. lra.
Qed.

Lemma dens_func_bounds_witness :
  exists n,
    dens_func 1 2 1 0 [0.5; 1; 3.5; 4] [0; 0; 0; 0] = Ok n
    /\ forall i, (i < 4)%nat ->
         (0 <= nth i [0.5; 1; 3.5; 4] 0 -> 0 <= nth i n 0 <= 1 + 0 * nth i [0; 0; 0; 0] 0 ^ 2)
         /\ (nth i [0.5; 1; 3.5; 4] 0 < 0 -> nth i n 0 < 0)
         /\ (nth i [0; 0; 0; 0] 0 = 0 -> 0 <= nth i [0.5; 1; 3.5; 4] 0 ->
             0 <= nth i n 0 <= 1).
Proof.
  apply (dens_func_bounds 1 2 1 0 [0.5; 1; 3.5; 4] [0; 0; 0; 0]);
    [lra | lra | lra | lra | reflexivity].
Defined.

Lemma matmul_ignores_zero_row G G' invM :
  shape G' = shape G ->
  (forall j, (j < ncols invM)%nat -> item invM 0 j = 0) ->
  (forall i k, (1 <= k)%nat -> item G' i k = item G i k) ->
  same_array (matmul G invM) (matmul G' invM).
Proof.
  intros Hs Hrow Hcols. injection Hs as Hr Hc.
  split; [unfold shape; cbn; congruence|].
  intros i j _ Hj. cbn [matmul item nrows ncols] in *. rewrite Hc.
  apply C_eq.
  - rewrite !Csum_fst. apply Rsum_ext. intros k _. rewrite !Cmul_RtoC_fst.
    destruct k as [|k]; [rewrite Hrow by assumption; ring|].
    rewrite Hcols by lia. reflexivity.
  - rewrite !Csum_snd. apply Rsum_ext. intros k _. rewrite !Cmul_RtoC_snd.
    destruct k as [|k]; [rewrite Hrow by assumption; ring|].
    rewrite Hcols by lia. reflexivity.
Qed.

(** X11.  For [m != 0] and [p != m-1], [inverse_transform] with the
    [invM] the constructor stores does not read the zero-frequency
    column of its input: two inputs that agree from column 1 on give
    the same output. *)
Theorem inverse_transform_ignores_column_0 L p m Nr Nz rmax :
  scipy_contract L -> valid_construction L p m Nr Nz rmax false ->
  m <> 0%Z -> p <> (m - 1)%Z ->
  exists w,
    init_grids_and_invM L p m Nr Nz rmax false new_world = (w, Ok tt)
    /\ forall G G' F0,
         ncols G = Z.to_nat Nr -> shape G' = shape G -> shape F0 = shape G ->
         (forall i k, (1 <= k)%nat -> item G' i k = item G i k) ->
         exists F F',
           inverse_transform L G (mk_frame (self w) F0)
           = (mk_frame (self w) F, Ok tt)
           /\ inverse_transform L G' (mk_frame (self w) F0)
              = (mk_frame (self w) F', Ok tt)
           /\ same_array F F'.
Proof.
  intros HL Hv Hm Hp.
  destruct (valid_runs L p m Nr Nz rmax false HL Hv)
    as (alphas & s1 & invM & _ & _ & Hrun & _ & Hu & Hsh & Hit).
  eexists. split; [exact Hrun|]. cbn [self].
  intros G G' F0 HG HG' HF0 Hcols.
  injection Hsh as Hr Hc. pose proof HG' as HG''. injection HG'' as Hr' Hc'.
  exists (matmul G invM), (matmul G' invM).
  rewrite !(inverse_transform_cpu L _ _ F0 invM) by (cbn; auto).
  rewrite !np_dot_ok;
    try congruence; try (rewrite HF0; unfold shape; congruence).
  split; [reflexivity|]. split; [reflexivity|].
  apply matmul_ignores_zero_row; [exact HG' | | exact Hcols].
  intros j Hj. destruct (Hit 0%nat j) as (_ & _ & H3); [lia | exact Hj |].
  apply H3; auto.
Qed.

Lemma inverse_transform_ignores_column_0_witness :
  exists w,
    init_grids_and_invM stand_in 1 1 2 1 1 false new_world = (w, Ok tt)
    /\ forall G G' F0,
         ncols G = Z.to_nat 2 -> shape G' = shape G -> shape F0 = shape G ->
         (forall i k, (1 <= k)%nat -> item G' i k = item G i k) ->
         exists F F',
           inverse_transform stand_in G (mk_frame (self w) F0)
           = (mk_frame (self w) F, Ok tt)
           /\ inverse_transform stand_in G' (mk_frame (self w) F0)
              = (mk_frame (self w) F', Ok tt)
           /\ same_array F F'.
Proof.
  apply (inverse_transform_ignores_column_0 stand_in 1 1 2 1 1
           stand_in_contract stand_in_valid_1_1_2); lia.
Defined.
